(** * generate_paper_html.py: the fetch / normalise / sort / write pipeline

    A shallow embedding of [generate_paper_html.py].  Python objects are
    values of the type [value]; a Python [str] is represented by its UTF-8
    encoding (a Rocq [string] is a sequence of bytes), which is also what
    [open(..., encoding='utf-8')] puts in a file.  Statements that can raise
    are computations in the monad [M]: they thread the observable state
    (standard output, the file system) and return [Ok] or [Raise].

    What the script obtains from outside (the Scholar provider, the clock,
    the faults of the file system, the YAML emitter and the interpreter's
    [repr] of strings) is gathered in the record [world].  Exceptions are
    the subclasses of [Exception], which the handlers of the script catch. *)

From Stdlib Require Import ZArith String Ascii List Lia.
From Stdlib Require Import DecimalString DecimalN DecimalZ DecimalPos DecimalFacts.
From stdpp Require Import base option list strings gmap sorting.

Local Open Scope Z_scope.
Local Open Scope string_scope.
Local Open Scope list_scope.

(** ** Python objects *)

Module Py.

(** The objects the script handles: [None], booleans, integers of arbitrary
    size, strings, lists and dictionaries with string keys.  A dictionary
    keeps its insertion order, hence an association list.  Floating point
    numbers are not modelled. *)
#[local] Unset Elimination Schemes.
Inductive value : Type :=
| VNone
| VBool (b : bool)
| VInt (z : Z)
| VStr (s : string)
| VList (l : list value)
| VDict (d : list (string * value)).
#[local] Set Elimination Schemes.

(** The subclasses of [Exception] that can arise, with [str(e)]. *)
Inductive exn_kind : Set :=
| KeyError | TypeError | AttributeError | ValueError
| FileNotFoundError | FileExistsError | IsADirectoryError | OSError
| ProviderError.

Record exn : Set := Exn { exn_kind_of : exn_kind; exn_str : string }.

Inductive result (A : Type) : Type :=
| Ok (a : A)
| Raise (e : exn).
Arguments Ok {A} a.
Arguments Raise {A} e.

Definition result_bind {A B} (r : result A) (k : A → result B) : result B :=
  match r with
  | Ok a => k a
  | Raise e => Raise e
  end.

Fixpoint result_mapM {A B} (f : A → result B) (l : list A) : result (list B) :=
  match l with
  | [] => Ok []
  | x :: l' =>
      result_bind (f x) (λ y,
      result_bind (result_mapM f l') (λ ys, Ok (y :: ys)))
  end.

Definition is_ok {A} (r : result A) : bool :=
  match r with Ok _ => true | Raise _ => false end.

(** The induction principle that reaches inside lists and dictionaries. *)
Section value_induction.
Variable P : value → Prop.
Hypothesis HNone : P VNone.
Hypothesis HBool : ∀ b, P (VBool b).
Hypothesis HInt : ∀ z, P (VInt z).
Hypothesis HStr : ∀ s, P (VStr s).
Hypothesis HList : ∀ l, Forall P l → P (VList l).
Hypothesis HDict : ∀ d, Forall (λ kv, P kv.2) d → P (VDict d).

Fixpoint value_ind' (v : value) : P v :=
  match v with
  | VNone => HNone
  | VBool b => HBool b
  | VInt z => HInt z
  | VStr s => HStr s
  | VList l =>
      HList l ((fix go (l : list value) : Forall P l :=
                  match l with
                  | [] => Forall_nil_2 P
                  | x :: l' => Forall_cons_2 P x l' (value_ind' x) (go l')
                  end) l)
  | VDict d =>
      HDict d ((fix go (d : list (string * value)) : Forall (λ kv, P kv.2) d :=
                  match d with
                  | [] => Forall_nil_2 _
                  | kv :: d' =>
                      Forall_cons_2 (λ kv, P kv.2) kv d' (value_ind' kv.2) (go d')
                  end) d)
  end.
End value_induction.

(** *** Characters and small strings *)

Definition chr (n : nat) : string := String (ascii_of_nat n) EmptyString.
Definition nl : string := chr 10.
Definition dq : string := chr 34.
Definition sq : string := chr 39.

(** Decimal notation of an integer, as [str(int)] writes it (without the
    limit that recent interpreters put on the number of digits). *)
Definition dec (z : Z) : string := NilZero.string_of_int (Z.to_int z).
Definition dec_nat (n : nat) : string := dec (Z.of_nat n).

(** *** Dictionaries *)

Fixpoint dict_lookup (k : string) (d : list (string * value)) : option value :=
  match d with
  | [] => None
  | (k', v) :: d' => if decide (k = k') then Some v else dict_lookup k d'
  end.

(** [d[k] = v] on a dictionary: an existing key keeps its position. *)
Fixpoint dict_set (k : string) (v : value) (d : list (string * value))
  : list (string * value) :=
  match d with
  | [] => [(k, v)]
  | (k', v') :: d' =>
      if decide (k = k') then (k, v) :: d' else (k', v') :: dict_set k v d'
  end.

(** [dict(pairs)]: later bindings of a key replace earlier ones. *)
Definition dict_of_pairs (l : list (string * value)) : list (string * value) :=
  foldl (λ d kv, dict_set kv.1 kv.2 d) [] l.

(** Every dictionary inside the value has pairwise distinct keys, as every
    Python dictionary has. *)
Fixpoint wf (v : value) : Prop :=
  match v with
  | VList l => (fix go (l : list value) : Prop :=
                  match l with [] => True | x :: l' => wf x ∧ go l' end) l
  | VDict d => NoDup d.*1 ∧
               (fix go (d : list (string * value)) : Prop :=
                  match d with [] => True | kv :: d' => wf kv.2 ∧ go d' end) d
  | _ => True
  end.

(** The name of the type, for the messages of [TypeError]. *)
Definition type_name (v : value) : string :=
  match v with
  | VNone => "NoneType"
  | VBool _ => "bool"
  | VInt _ => "int"
  | VStr _ => "str"
  | VList _ => "list"
  | VDict _ => "dict"
  end.

(** [v[k]] for a string key [k]. *)
Definition getitem (v : value) (k : string) : result value :=
  match v with
  | VDict d =>
      match dict_lookup k d with
      | Some x => Ok x
      | None => Raise (Exn KeyError (sq +:+ k +:+ sq))
      end
  | VList _ =>
      Raise (Exn TypeError "list indices must be integers or slices, not str")
  | VStr _ =>
      Raise (Exn TypeError "string indices must be integers, not 'str'")
  | _ =>
      Raise (Exn TypeError (sq +:+ type_name v +:+ sq +:+ " object is not subscriptable"))
  end.

(** [v.get(k, default)]: only a dictionary has the method. *)
Definition get (v : value) (k : string) (default : value) : result value :=
  match v with
  | VDict d => Ok (from_option id default (dict_lookup k d))
  | _ =>
      Raise (Exn AttributeError
               (sq +:+ type_name v +:+ sq +:+ " object has no attribute 'get'"))
  end.

(** The characters of a string: a character starts at every byte that is not
    a UTF-8 continuation byte (10xxxxxx). *)
Definition is_continuation (c : ascii) : bool :=
  let n := nat_of_ascii c in (128 <=? n)%nat && (n <? 192)%nat.

Fixpoint chars_go (cur : string) (s : string) : list string :=
  match s with
  | EmptyString => [cur]
  | String c s' =>
      if is_continuation c then chars_go (cur +:+ String c EmptyString) s'
      else cur :: chars_go (String c EmptyString) s'
  end.

Definition chars (s : string) : list string :=
  match s with
  | EmptyString => []
  | String c s' => chars_go (String c EmptyString) s'
  end.

(** What [for x in v] enumerates. *)
Definition iter (v : value) : result (list value) :=
  match v with
  | VList l => Ok l
  | VDict d => Ok (VStr <$> d.*1)
  | VStr s => Ok (VStr <$> chars s)
  | _ => Raise (Exn TypeError (sq +:+ type_name v +:+ sq +:+ " object is not iterable"))
  end.

(** [len(v)]. *)
Definition len (v : value) : result nat :=
  match v with
  | VList l => Ok (length l)
  | VDict d => Ok (length d)
  | VStr s => Ok (length (chars s))
  | _ => Raise (Exn TypeError ("object of type " +:+ sq +:+ type_name v +:+ sq +:+ " has no len()"))
  end.

(** [bool(v)], the test of [if v:]. *)
Definition truthy (v : value) : bool :=
  match v with
  | VNone => false
  | VBool b => b
  | VInt z => negb (z =? 0)%Z
  | VStr s => match s with EmptyString => false | _ => true end
  | VList l => match l with [] => false | _ => true end
  | VDict d => match d with [] => false | _ => true end
  end.

(** *** [repr], [str] and [int] *)

Section repr.
(** [repr] of a string picks the quote and escapes by the Unicode class of
    each character; it is left to the interpreter. *)
Variable repr_str : string → string.

Definition join (sep : string) (l : list string) : string :=
  match l with
  | [] => ""
  | x :: l' => x +:+ foldr (λ y acc, sep +:+ y +:+ acc) "" l'
  end.

Fixpoint repr (v : value) : string :=
  match v with
  | VNone => "None"
  | VBool b => if b then "True" else "False"
  | VInt z => dec z
  | VStr s => repr_str s
  | VList l => "[" +:+ join ", " (map repr l) +:+ "]"
  | VDict d =>
      "{" +:+ join ", " (map (λ kv, repr_str kv.1 +:+ ": " +:+ repr kv.2) d) +:+ "}"
  end.

(** [str(v)], which is also what an f-string and [str.format] put in
    place of [{}]. *)
Definition str (v : value) : string :=
  match v with
  | VStr s => s
  | _ => repr v
  end.

(** Whitespace that [int] strips (the ASCII part of it). *)
Definition is_space (c : ascii) : bool :=
  let n := nat_of_ascii c in
  ((9 <=? n) && (n <=? 13) || (28 <=? n) && (n <=? 32))%nat.

Definition digit_of (c : ascii) : option Z :=
  let n := nat_of_ascii c in
  if ((48 <=? n) && (n <=? 57))%nat then Some (Z.of_nat n - 48) else None.

Fixpoint lstrip (l : list ascii) : list ascii :=
  match l with
  | c :: l' => if is_space c then lstrip l' else l
  | [] => []
  end.

Definition strip (l : list ascii) : list ascii :=
  reverse (lstrip (reverse (lstrip l))).

(** Digits, with single underscores allowed between two digits. *)
Fixpoint int_digits (after_digit : bool) (acc : Z) (l : list ascii) : option Z :=
  match l with
  | [] => if after_digit then Some acc else None
  | c :: l' =>
      match digit_of c with
      | Some d => int_digits true (acc * 10 + d) l'
      | None =>
          if Ascii.eqb c "_"%char && after_digit then int_digits false acc l'
          else None
      end
  end.

Definition int_of_literal (s : string) : option Z :=
  match strip (list_ascii_of_string s) with
  | c :: l =>
      if Ascii.eqb c "-"%char then Z.opp <$> int_digits false 0 l
      else if Ascii.eqb c "+"%char then int_digits false 0 l
      else int_digits false 0 (c :: l)
  | [] => None
  end.

(** [int(v)].  Only ASCII digits and whitespace are recognised in a
    string, and no limit is put on the number of digits. *)
Definition int (v : value) : result Z :=
  match v with
  | VInt z => Ok z
  | VBool b => Ok (if b then 1 else 0)
  | VStr s =>
      match int_of_literal s with
      | Some z => Ok z
      | None =>
          Raise (Exn ValueError
                   ("invalid literal for int() with base 10: " +:+ repr_str s))
      end
  | _ =>
      Raise (Exn TypeError
               ("int() argument must be a string, a bytes-like object or a real number, not "
                +:+ sq +:+ type_name v +:+ sq))
  end.
End repr.

(** *** [list.sort(key=..., reverse=...)] *)

Section sort.
Context {A : Type}.

(** Insertion in a list of decorated elements, before the first element
    whose key is not smaller: elements with equal keys keep their order. *)
Fixpoint insert (x : Z * A) (l : list (Z * A)) : list (Z * A) :=
  match l with
  | [] => [x]
  | y :: l' => if (x.1 <=? y.1)%Z then x :: y :: l' else y :: insert x l'
  end.

(** The sort of CPython is a merge sort that is stable; insertion stands
    for it here, a list having only one sorted and stable rearrangement
    (see [stable_sort_unique] below). *)
Definition stable_sort (l : list (Z * A)) : list (Z * A) := foldr insert [] l.

(** The keys are computed first, for every element and in order; an
    exception of the key function leaves nothing sorted.  With [reverse]
    the list is reversed, sorted and reversed again, which keeps the order
    of elements with equal keys. *)
Definition sort (key : A → result Z) (reverse_ : bool) (l : list A)
  : result (list A) :=
  result_bind (result_mapM key l) (λ keys,
    let decorated := zip keys l in
    Ok (if reverse_
        then (reverse (stable_sort (reverse decorated))).*2
        else (stable_sort decorated).*2)).
End sort.

End Py.

(** ** The [json] module, as the script calls it

    [json.dump(data, f, ensure_ascii=False, indent=2)] and [json.load],
    after the encoder and the decoder of CPython's [json] package, on the
    objects of [Py.value].  A literal with a fraction or an exponent, [NaN]
    and [Infinity] denote floats: the decoder modelled here rejects them.
    No recursion limit of the interpreter is modelled. *)

Module Json.
Import Py.

(** *** Encoder *)

Definition hex_digit (n : nat) : ascii :=
  if (n <? 10)%nat then ascii_of_nat (48 + n) else ascii_of_nat (87 + n).

(** [ESCAPE_DCT]: the short escapes, and [\u00XX] for the other control
    characters.  With [ensure_ascii=False] every other character, the bytes
    of a non-ASCII character among them, is written as it is. *)
Definition escape_char (c : ascii) : string :=
  let n := nat_of_ascii c in
  if (n =? 34)%nat then "\" +:+ dq
  else if (n =? 92)%nat then "\\"
  else if (n =? 10)%nat then "\n"
  else if (n =? 13)%nat then "\r"
  else if (n =? 9)%nat then "\t"
  else if (n =? 8)%nat then "\b"
  else if (n =? 12)%nat then "\f"
  else if (n <? 32)%nat then
    "\u00" +:+ String (hex_digit (n / 16)) (String (hex_digit (n mod 16)) "")
  else String c "".

Fixpoint escape (s : string) : string :=
  match s with
  | EmptyString => ""
  | String c s' => escape_char c +:+ escape s'
  end.

Definition encode_string (s : string) : string := dq +:+ escape s +:+ dq.

Fixpoint spaces (n : nat) : string :=
  match n with
  | O => ""
  | S n' => " " +:+ spaces n'
  end.

(** ['\n' + indent * level], with [indent=2]. *)
Definition newline_indent (level : nat) : string := nl +:+ spaces (2 * level).

(** The chunks of the items, separated by [',' + newline_indent]. *)
Fixpoint separated (sep : string) (chunks : list string) : string :=
  match chunks with
  | [] => ""
  | [x] => x
  | x :: l => x +:+ sep +:+ separated sep l
  end.

Fixpoint encode (level : nat) (v : value) : string :=
  match v with
  | VNone => "null"
  | VBool true => "true"
  | VBool false => "false"
  | VInt z => dec z
  | VStr s => encode_string s
  | VList [] => "[]"
  | VList l =>
      "[" +:+ newline_indent (S level)
      +:+ separated ("," +:+ newline_indent (S level)) (map (encode (S level)) l)
      +:+ newline_indent level +:+ "]"
  | VDict [] => "{}"
  | VDict d =>
      "{" +:+ newline_indent (S level)
      +:+ separated ("," +:+ newline_indent (S level))
            (map (λ kv, encode_string kv.1 +:+ ": " +:+ encode (S level) kv.2) d)
      +:+ newline_indent level +:+ "}"
  end.

Definition dumps (v : value) : string := encode 0 v.

(** *** Decoder *)

Definition is_ws (c : ascii) : bool :=
  let n := nat_of_ascii c in
  ((n =? 32) || (n =? 9) || (n =? 10) || (n =? 13))%nat.

Fixpoint skip_ws (s : string) : string :=
  match s with
  | String c s' => if is_ws c then skip_ws s' else s
  | EmptyString => ""
  end.

Definition is_digit (c : ascii) : bool :=
  let n := nat_of_ascii c in ((48 <=? n) && (n <=? 57))%nat.

Definition hex_value (c : ascii) : option N :=
  let n := nat_of_ascii c in
  if ((48 <=? n) && (n <=? 57))%nat then Some (N.of_nat (n - 48))
  else if ((97 <=? n) && (n <=? 102))%nat then Some (N.of_nat (n - 87))
  else if ((65 <=? n) && (n <=? 70))%nat then Some (N.of_nat (n - 55))
  else None.

(** [_decode_uXXXX]: exactly four hexadecimal digits. *)
Definition hex4 (a b c d : ascii) : option N :=
  x ← hex_value a; y ← hex_value b; z ← hex_value c; t ← hex_value d;
  Some (((x * 16 + y) * 16 + z) * 16 + t)%N.

Definition byte (n : N) : ascii := ascii_of_N n.

(** The UTF-8 encoding of a code point; a lone surrogate takes the three
    bytes the general scheme gives it. *)
Definition utf8 (u : N) : string :=
  if (u <? 128)%N then String (byte u) ""
  else if (u <? 2048)%N then
    String (byte (192 + u / 64)) (String (byte (128 + u mod 64)) "")
  else if (u <? 65536)%N then
    String (byte (224 + u / 4096))
      (String (byte (128 + (u / 64) mod 64)) (String (byte (128 + u mod 64)) ""))
  else
    String (byte (240 + u / 262144))
      (String (byte (128 + (u / 4096) mod 64))
         (String (byte (128 + (u / 64) mod 64)) (String (byte (128 + u mod 64)) ""))).

(** [BACKSLASH]: the character a short escape stands for. *)
Definition unescape (e : ascii) : option ascii :=
  let n := nat_of_ascii e in
  if (n =? 34)%nat then Some e
  else if (n =? 92)%nat then Some e
  else if (n =? 47)%nat then Some e
  else if (n =? 98)%nat then Some (ascii_of_nat 8)
  else if (n =? 102)%nat then Some (ascii_of_nat 12)
  else if (n =? 110)%nat then Some (ascii_of_nat 10)
  else if (n =? 114)%nat then Some (ascii_of_nat 13)
  else if (n =? 116)%nat then Some (ascii_of_nat 9)
  else None.

Definition is_high_surrogate (u : N) : bool := (55296 <=? u)%N && (u <=? 56319)%N.
Definition is_low_surrogate (u : N) : bool := (56320 <=? u)%N && (u <=? 57343)%N.

(** [scanstring] in strict mode, from just after the opening quote: the
    contents and what follows the closing quote. *)
Fixpoint scan_string (s : string) : option (string * string) :=
  match s with
  | EmptyString => None
  | String c s' =>
      if Ascii.eqb c (ascii_of_nat 34) then Some ("", s')
      else if Ascii.eqb c "\"%char then
        match s' with
        | EmptyString => None
        | String e s'' =>
            if Ascii.eqb e "u"%char then
              match s'' with
              | String h1 (String h2 (String h3 (String h4 r))) =>
                  match hex4 h1 h2 h3 h4 with
                  | None => None
                  | Some u =>
                      if is_high_surrogate u then
                        match r with
                        | String b (String u' r2) =>
                            if Ascii.eqb b "\"%char && Ascii.eqb u' "u"%char then
                              match r2 with
                              | String k1 (String k2 (String k3 (String k4 r'))) =>
                                  match hex4 k1 k2 k3 k4 with
                                  | None => None
                                  | Some u2 =>
                                      if is_low_surrogate u2 then
                                        '(t, rest) ← scan_string r';
                                        Some (utf8 (65536 + (u - 55296) * 1024 + (u2 - 56320))
                                              +:+ t, rest)
                                      else
                                        '(t, rest) ← scan_string r;
                                        Some (utf8 u +:+ t, rest)
                                  end
                              | _ => None
                              end
                            else
                              '(t, rest) ← scan_string r;
                              Some (utf8 u +:+ t, rest)
                        | _ =>
                            '(t, rest) ← scan_string r;
                            Some (utf8 u +:+ t, rest)
                        end
                      else
                        '(t, rest) ← scan_string r;
                        Some (utf8 u +:+ t, rest)
                  end
              | _ => None
              end
            else
              match unescape e with
              | Some ch => '(t, rest) ← scan_string s''; Some (String ch t, rest)
              | None => None
              end
        end
      else if (nat_of_ascii c <? 32)%nat then None
      else '(t, rest) ← scan_string s'; Some (String c t, rest)
  end.

(** [0|[1-9][0-9]*]: the digits of an integer literal. *)
Fixpoint span_digits (s : string) : string * string :=
  match s with
  | String c s' =>
      if is_digit c then let '(d, r) := span_digits s' in (String c d, r)
      else ("", s)
  | EmptyString => ("", "")
  end.

Definition scan_nat (s : string) : option (N * string) :=
  match s with
  | String c s' =>
      if Ascii.eqb c "0"%char then Some (0%N, s')
      else if is_digit c then
        let '(d, r) := span_digits s in
        u ← NilZero.uint_of_string d; Some (N.of_uint u, r)
      else None
  | EmptyString => None
  end.

(** Whether a fraction or an exponent follows: the literal is then a float,
    which is outside [Py.value]. *)
Definition float_tail (r : string) : bool :=
  match r with
  | String c r' =>
      if Ascii.eqb c "."%char then
        match r' with String c' _ => is_digit c' | _ => false end
      else if Ascii.eqb c "e"%char || Ascii.eqb c "E"%char then
        match r' with
        | String c' r'' =>
            is_digit c'
            || (Ascii.eqb c' "+"%char || Ascii.eqb c' "-"%char)
               && match r'' with String c'' _ => is_digit c'' | _ => false end
        | _ => false
        end
      else false
  | EmptyString => false
  end.

Definition scan_number (s : string) : option (value * string) :=
  match s with
  | String c s' =>
      if Ascii.eqb c "-"%char then
        '(n, r) ← scan_nat s';
        if float_tail r then None else Some (VInt (- Z.of_N n), r)
      else
        '(n, r) ← scan_nat s;
        if float_tail r then None else Some (VInt (Z.of_N n), r)
  | EmptyString => None
  end.

Fixpoint strip_prefix (p s : string) : option string :=
  match p, s with
  | EmptyString, _ => Some s
  | String a p', String b s' => if Ascii.eqb a b then strip_prefix p' s' else None
  | _, _ => None
  end.

(** [scan_once], [JSONArray] and [JSONObject]; every call spends one unit of
    [fuel]. *)
Fixpoint parse_value (fuel : nat) (s : string) {struct fuel}
  : option (value * string) :=
  match fuel with
  | O => None
  | S n =>
      match s with
      | EmptyString => None
      | String c r =>
          if Ascii.eqb c (ascii_of_nat 34) then
            '(t, r') ← scan_string r; Some (VStr t, r')
          else if Ascii.eqb c "{"%char then
            match skip_ws r with
            | String c' r' =>
                if Ascii.eqb c' "}"%char then Some (VDict [], r')
                else '(d, r'') ← parse_members n (String c' r');
                     Some (VDict (dict_of_pairs d), r'')
            | EmptyString => None
            end
          else if Ascii.eqb c "["%char then
            match skip_ws r with
            | String c' r' =>
                if Ascii.eqb c' "]"%char then Some (VList [], r')
                else '(l, r'') ← parse_items n (String c' r'); Some (VList l, r'')
            | EmptyString => None
            end
          else if Ascii.eqb c "n"%char then
            r' ← strip_prefix "ull" r; Some (VNone, r')
          else if Ascii.eqb c "t"%char then
            r' ← strip_prefix "rue" r; Some (VBool true, r')
          else if Ascii.eqb c "f"%char then
            r' ← strip_prefix "alse" r; Some (VBool false, r')
          else scan_number s
      end
  end
with parse_items (fuel : nat) (s : string) {struct fuel}
  : option (list value * string) :=
  match fuel with
  | O => None
  | S n =>
      '(v, r) ← parse_value n s;
      match skip_ws r with
      | String c r' =>
          if Ascii.eqb c "]"%char then Some ([v], r')
          else if Ascii.eqb c ","%char then
            '(l, r'') ← parse_items n (skip_ws r'); Some (v :: l, r'')
          else None
      | EmptyString => None
      end
  end
with parse_members (fuel : nat) (s : string) {struct fuel}
  : option (list (string * value) * string) :=
  match fuel with
  | O => None
  | S n =>
      match s with
      | String q r =>
          if Ascii.eqb q (ascii_of_nat 34) then
            '(k, r1) ← scan_string r;
            match skip_ws r1 with
            | String c r2 =>
                if Ascii.eqb c ":"%char then
                  '(v, r3) ← parse_value n (skip_ws r2);
                  match skip_ws r3 with
                  | String c' r4 =>
                      if Ascii.eqb c' "}"%char then Some ([(k, v)], r4)
                      else if Ascii.eqb c' ","%char then
                        '(d, r5) ← parse_members n (skip_ws r4);
                        Some ((k, v) :: d, r5)
                      else None
                  | EmptyString => None
                  end
                else None
            | EmptyString => None
            end
          else None
      | EmptyString => None
      end
  end.

(** [json.loads]: one value, with white space around it and nothing else. *)
Definition loads (s : string) : option value :=
  '(v, r) ← parse_value (2 * String.length s + 1) (skip_ws s);
  match skip_ws r with
  | EmptyString => Some v
  | _ => None
  end.

End Json.

(** ** The script *)

Module Script.
Import Py.

(** *** The outside world *)

Inductive fs_op : Set :=
| Makedirs (path : string)
| Open (path : string).

(** [search_author_id] and [fill] are the two entry points of the
    [scholarly] package; [fill] also gets the number of the call (0 for the
    author, [i + 1] for the publication of index [i]), so that its answers
    may differ from call to call.  [now] is the formatted clock.  [fault]
    makes a file-system call fail for a reason of its own (permissions, a
    full disk); [write_fault] makes the writes to a file fail after so many
    bytes. *)
Record world : Type := World {
  search_author_id : string → result value;
  fill : nat → value → result value;
  now : string;
  repr_str : string → string;
  yaml_dump : value → string;
  fault : fs_op → option exn;
  write_fault : string → option (nat * exn)
}.

(** What a run can change: the lines printed, the directories and the files
    of the working directory, and the number of pauses taken. *)
Record state : Type := State {
  stdout : list string;
  dirs : gset string;
  files : gmap string string;
  naps : nat
}.

Definition M (A : Type) : Type := state → result A * state.

Definition ret {A} (a : A) : M A := λ st, (Ok a, st).

Definition bind {A B} (m : M A) (k : A → M B) : M B :=
  λ st, match m st with
        | (Ok a, st') => k a st'
        | (Raise e, st') => (Raise e, st')
        end.

(** [try: body except Exception as e: handler e]; what the body did before
    it raised stays done. *)
Definition try_except {A} (body : M A) (handler : exn → M A) : M A :=
  λ st, match body st with
        | (Ok a, st') => (Ok a, st')
        | (Raise e, st') => handler e st'
        end.

Definition lift {A} (r : result A) : M A := λ st, (r, st).

#[export] Instance M_ret : MRet M := @ret.
#[export] Instance M_bind : MBind M := λ A B k m, bind m k.
#[export] Instance result_ret : MRet result := @Ok.
#[export] Instance result_mbind : MBind result := λ A B k r, result_bind r k.

Definition print (line : string) : M unit :=
  λ st, (Ok (), State (stdout st ++ [line]) (dirs st) (files st) (naps st)).

(** [time.sleep(random.uniform(1, 3))]. *)
Definition sleep : M unit :=
  λ st, (Ok (), State (stdout st) (dirs st) (files st) (S (naps st))).

(** *** The file system *)

(** The directory part of a relative path: what precedes the last slash. *)
Fixpoint dirname_go (p : string) : option string :=
  match p with
  | EmptyString => None
  | String c p' =>
      match dirname_go p' with
      | Some d => Some (String c d)
      | None => if Ascii.eqb c "/"%char then Some "" else None
      end
  end.

Definition dirname (p : string) : string := default "" (dirname_go p).

Section filesystem.
Variable w : world.

(** [os.makedirs(path, exist_ok=True)], for a path of one component. *)
Definition makedirs (path : string) : M unit :=
  λ st,
    match fault w (Makedirs path) with
    | Some e => (Raise e, st)
    | None =>
        if decide (is_Some (files st !! path)) then
          (Raise (Exn FileExistsError
                    ("[Errno 17] File exists: " +:+ sq +:+ path +:+ sq)), st)
        else (Ok (), State (stdout st) ({[path]} ∪ dirs st) (files st) (naps st))
    end.

(** [open(path, 'w', encoding='utf-8')]: the file is created or emptied.
    The directory of the path has to exist; the working directory does. *)
Definition open_w (path : string) : M unit :=
  λ st,
    match fault w (Open path) with
    | Some e => (Raise e, st)
    | None =>
        if decide (path ∈ dirs st) then
          (Raise (Exn IsADirectoryError
                    ("[Errno 21] Is a directory: " +:+ sq +:+ path +:+ sq)), st)
        else if decide (dirname path = "" ∨ dirname path ∈ dirs st) then
          (Ok (), State (stdout st) (dirs st) (<[path := ""]> (files st)) (naps st))
        else
          (Raise (Exn FileNotFoundError
                    ("[Errno 2] No such file or directory: " +:+ sq +:+ path +:+ sq)), st)
    end.

Definition take_bytes (n : nat) (text : string) : string :=
  string_of_list_ascii (take n (list_ascii_of_string text)).

(** The writes of one [with] block on the file just opened. *)
Definition write (path : string) (text : string) : M unit :=
  λ st,
    let old := default "" (files st !! path) in
    match write_fault w path with
    | Some (n, e) =>
        (Raise e, State (stdout st) (dirs st)
                    (<[path := old +:+ take_bytes n text]> (files st)) (naps st))
    | None =>
        (Ok (), State (stdout st) (dirs st)
                  (<[path := old +:+ text]> (files st)) (naps st))
    end.
End filesystem.

(** *** [get_author_publications] *)

Definition url_prefix : string :=
  "https://scholar.google.com/citations?view_op=view_citation&citation_for_view=".

Section script.
Variable w : world.

(** The dictionary built from a filled publication (lines 37 to 46). *)
Definition pub_dict (pub_filled : value) : result value :=
  bib ← getitem pub_filled "bib";
  title ← get bib "title" (VStr "");
  authors ← get bib "author" (VStr "");
  conference ← get bib "conference" (VStr "");
  venue ← get bib "journal" conference;
  year ← get bib "pub_year" (VInt 0);
  citations ← get pub_filled "num_citations" (VInt 0);
  id ← getitem pub_filled "author_pub_id";
  abstract ← get bib "abstract" (VStr "");
  mret (VDict [("title", title);
               ("authors", authors);
               ("venue", venue);
               ("year", year);
               ("citations", citations);
               ("url", VStr (url_prefix +:+ str (repr_str w) id));
               ("abstract", abstract);
               ("bib_id", id)]).

(** One publication of the loop: the body of the inner [try]. *)
Definition expand (i : nat) (pub : value) : result value :=
  pub_filled ← fill w (S i) pub;
  pub_dict pub_filled.

(** The loop over [enumerate(author['publications'])], from index [i] on,
    with [publications] as it stands. *)
Fixpoint process (total i : nat) (pubs : list value) (publications : list value)
  : M (list value) :=
  match pubs with
  | [] => mret publications
  | pub :: pubs' =>
      print ("Processing publication " +:+ dec_nat (i + 1)
             +:+ " of " +:+ dec_nat total);;
      publications' ←
        try_except
          (d ← lift (expand i pub);
           sleep;;
           mret (publications ++ [d]))
          (λ e, print ("Error processing publication: " +:+ exn_str e);;
                mret publications);
      process total (S i) pubs' publications'
  end.

(** The key of the sort: [lambda x: int(x['year'])]. *)
Definition year_key (x : value) : result Z :=
  y ← getitem x "year"; int (repr_str w) y.

Definition get_author_publications (scholar_id : string) : M value :=
  try_except
    (author ← lift (search_author_id w scholar_id);
     author ← lift (fill w 0 author);
     citedby ← lift (getitem author "citedby");
     hindex ← lift (getitem author "hindex");
     i10index ← lift (getitem author "i10index");
     let stats := VDict [("citations", citedby);
                         ("h_index", hindex);
                         ("i10_index", i10index)] in
     pubs ← lift (getitem author "publications");
     items ← lift (iter pubs);
     publications ← process (length items) 0 items [];
     publications ← lift (sort year_key true publications);
     mret (VDict [("stats", stats);
                  ("publications", VList publications);
                  ("last_updated", VStr (now w))]))
    (λ e, print ("Error fetching author data: " +:+ exn_str e);;
          mret VNone).

(** *** The three sinks *)

Definition save_publications (data : value) (filename : string) : M unit :=
  try_except
    (open_w w filename;;
     write w filename (Json.dumps data);;
     print ("Successfully saved publications to " +:+ filename))
    (λ e, print ("Error saving publications: " +:+ exn_str e)).

Definition html_head : string :=
"
        <html>
        <head>
            <title>Publications Preview</title>
            <style>
                body { font-family: Arial, sans-serif; max-width: 1200px; margin: 0 auto; padding: 20px; }
                .stats { display: flex; justify-content: space-around; margin: 20px 0; padding: 20px; background: #f5f5f5; }
                .stat-item { text-align: center; }
                .stat-number { font-size: 24px; font-weight: bold; color: #2d3c48; }
                .stat-label { color: #666; }
                .publication { margin: 20px 0; padding: 20px; border: 1px solid #eee; border-radius: 5px; }
                .title { font-size: 18px; color: #2d3c48; margin-bottom: 10px; }
                .authors { color: #666; margin-bottom: 5px; }
                .venue { color: #3e8cb7; }
                .citations { color: #72b16e; }
                .year { float: right; color: #666; }
                .last-updated { text-align: center; color: #666; margin-top: 40px; }
            </style>
        </head>
        <body>
        ".

Definition html_stats (citations h_index i10_index : string) : string :=
"
        <div class=" +:+ dq +:+ "stats" +:+ dq +:+ ">
            <div class=" +:+ dq +:+ "stat-item" +:+ dq +:+ ">
                <div class=" +:+ dq +:+ "stat-number" +:+ dq +:+ ">"
+:+ citations +:+ "</div>
                <div class=" +:+ dq +:+ "stat-label" +:+ dq +:+ ">Citations</div>
            </div>
            <div class=" +:+ dq +:+ "stat-item" +:+ dq +:+ ">
                <div class=" +:+ dq +:+ "stat-number" +:+ dq +:+ ">"
+:+ h_index +:+ "</div>
                <div class=" +:+ dq +:+ "stat-label" +:+ dq +:+ ">h-index</div>
            </div>
            <div class=" +:+ dq +:+ "stat-item" +:+ dq +:+ ">
                <div class=" +:+ dq +:+ "stat-number" +:+ dq +:+ ">"
+:+ i10_index +:+ "</div>
                <div class=" +:+ dq +:+ "stat-label" +:+ dq +:+ ">i10-index</div>
            </div>
        </div>
        ".

Definition html_publication (year url title authors venue citations : string) : string :=
"
            <div class=" +:+ dq +:+ "publication" +:+ dq +:+ ">
                <div class=" +:+ dq +:+ "year" +:+ dq +:+ ">"
+:+ year +:+ "</div>
                <div class=" +:+ dq +:+ "title" +:+ dq +:+ "><a href=" +:+ dq
+:+ url +:+ dq +:+ " target=" +:+ dq +:+ "_blank" +:+ dq +:+ ">"
+:+ title +:+ "</a></div>
                <div class=" +:+ dq +:+ "authors" +:+ dq +:+ ">"
+:+ authors +:+ "</div>
                <div class=" +:+ dq +:+ "venue" +:+ dq +:+ ">"
+:+ venue +:+ "</div>
                <div class=" +:+ dq +:+ "citations" +:+ dq +:+ ">"
+:+ citations +:+ " citations</div>
            </div>
            ".

Definition html_footer (last_updated : string) : string :=
"
        <div class=" +:+ dq +:+ "last-updated" +:+ dq +:+ ">Last updated: "
+:+ last_updated +:+ "</div>
        </body>
        </html>
        ".

Definition fmt (v : value) : string := str (repr_str w) v.

Definition render_publication (pub : value) : result string :=
  year ← getitem pub "year";
  url ← getitem pub "url";
  title ← getitem pub "title";
  authors ← getitem pub "authors";
  venue ← getitem pub "venue";
  citations ← getitem pub "citations";
  mret (html_publication (fmt year) (fmt url) (fmt title) (fmt authors)
          (fmt venue) (fmt citations)).

Fixpoint render_publications (html : string) (pubs : list value) : result string :=
  match pubs with
  | [] => mret html
  | pub :: pubs' =>
      block ← render_publication pub;
      render_publications (html +:+ block) pubs'
  end.

Definition render (data : value) : result string :=
  stats ← getitem data "stats";
  citations ← getitem stats "citations";
  stats ← getitem data "stats";
  h_index ← getitem stats "h_index";
  stats ← getitem data "stats";
  i10_index ← getitem stats "i10_index";
  let html := html_head +:+ html_stats (fmt citations) (fmt h_index) (fmt i10_index) in
  pubs ← getitem data "publications";
  pubs ← iter pubs;
  html ← render_publications html pubs;
  last_updated ← getitem data "last_updated";
  mret (html +:+ html_footer (fmt last_updated)).

Definition generate_html_preview (data : value) (filename : string) : M unit :=
  try_except
    (html ← lift (render data);
     open_w w filename;;
     write w filename html;;
     print ("Successfully generated HTML preview at " +:+ filename))
    (λ e, print ("Error generating HTML preview: " +:+ exn_str e)).

Definition save_publications_for_jekyll (data : value) (filename : string) : M unit :=
  try_except
    (makedirs w "_data";;
     stats ← lift (getitem data "stats");
     publications ← lift (getitem data "publications");
     last_updated ← lift (getitem data "last_updated");
     let yaml_data := VDict [("stats", stats);
                             ("publications", publications);
                             ("last_updated", last_updated)] in
     open_w w filename;;
     write w filename (yaml_dump w yaml_data);;
     print ("Successfully saved publications to " +:+ filename))
    (λ e, print ("Error saving publications: " +:+ exn_str e)).

(** *** [main] *)

Definition main : M unit :=
  print "Fetching publications from Google Scholar...";;
  data ← get_author_publications "B96GkdgAAAAJ";
  if truthy data then
    save_publications data "publications.json";;
    save_publications_for_jekyll data "_data/publications.yml";;
    generate_html_preview data "publications_preview.html";;
    print (nl +:+ "Stats:");;
    stats ← lift (getitem data "stats");
    citations ← lift (getitem stats "citations");
    print ("Total citations: " +:+ fmt citations);;
    stats ← lift (getitem data "stats");
    h_index ← lift (getitem stats "h_index");
    print ("h-index: " +:+ fmt h_index);;
    stats ← lift (getitem data "stats");
    i10_index ← lift (getitem stats "i10_index");
    print ("i10-index: " +:+ fmt i10_index);;
    publications ← lift (getitem data "publications");
    n ← lift (len publications);
    print (nl +:+ "Total publications processed: " +:+ dec_nat n);;
    last_updated ← lift (getitem data "last_updated");
    print ("Last updated: " +:+ fmt last_updated)
  else
    print "Failed to fetch publications".
End script.

(** The status with which the interpreter exits after [main()]: 0 when it
    returns, 1 when an exception reaches the top level. *)
Definition exit_status (w : world) (st : state) : Z :=
  match (main w st).1 with
  | Ok _ => 0
  | Raise _ => 1
  end.

End Script.

Import Py Json Script.

(** ** Notions used to state the properties *)

#[export] Instance exn_kind_eq_dec : EqDecision exn_kind.
Proof. solve_decision. Defined.
#[export] Instance exn_eq_dec : EqDecision exn.
Proof. solve_decision. Defined.
#[export] Instance result_eq_dec {A} `{EqDecision A} : EqDecision (result A).
Proof. solve_decision. Defined.

(** The publications whose expansion succeeds, in the order of the fetch;
    [i] is the index of the first stub of [pubs]. *)
Fixpoint expanded (w : world) (i : nat) (pubs : list value) : list value :=
  match pubs with
  | [] => []
  | pub :: pubs' =>
      match expand w i pub with
      | Ok d => d :: expanded w (S i) pubs'
      | Raise _ => expanded w (S i) pubs'
      end
  end.

(** The author record once filled, and the stubs it lists. *)
Definition author_of (w : world) (scholar_id : string) : result value :=
  author ← search_author_id w scholar_id; fill w 0 author.

Definition stats_of (author : value) : result value :=
  citedby ← getitem author "citedby";
  hindex ← getitem author "hindex";
  i10index ← getitem author "i10index";
  mret (VDict [("citations", citedby); ("h_index", hindex); ("i10_index", i10index)]).

Definition stubs_of (author : value) : result (list value) :=
  pubs ← getitem author "publications"; iter pubs.

(** The snapshot of a run as a function of the answers of the provider. *)
Definition snapshot (w : world) (scholar_id : string) : result value :=
  author ← author_of w scholar_id;
  stats ← stats_of author;
  stubs ← stubs_of author;
  publications ← sort (year_key w) true (expanded w 0 stubs);
  mret (VDict [("stats", stats);
               ("publications", VList publications);
               ("last_updated", VStr (now w))]).

(** A state differs from an earlier one by printed lines and pauses only. *)
Definition only_printed (st st' : state) (out : list string) : Prop :=
  stdout st' = stdout st ++ out ∧ dirs st' = dirs st ∧ files st' = files st.

(** What a sink leaves behind whatever happens: one more line, which is
    its report of success or of the exception it caught, and no file touched
    but its own. *)
Definition reported (st st' : state) (path success failure : string) : Prop :=
  (∃ line, stdout st' = stdout st ++ [line] ∧
           (line = success ∨ ∃ e, line = failure +:+ exn_str e)) ∧
  ∀ p, p ≠ path → files st' !! p = files st !! p.

(** Nothing prevents writing the file: no fault, the path is not a
    directory and its directory exists. *)
Definition writable (w : world) (st : state) (path : string) : Prop :=
  fault w (Open path) = None ∧ write_fault w path = None ∧
  (path ∉ dirs st) ∧ (dirname path = "" ∨ dirname path ∈ dirs st).

(** The lines [main] prints after the sinks. *)
Definition summary (w : world) (s : value) : result (list string) :=
  stats ← getitem s "stats";
  citations ← getitem stats "citations";
  h_index ← getitem stats "h_index";
  i10_index ← getitem stats "i10_index";
  publications ← getitem s "publications";
  n ← len publications;
  last_updated ← getitem s "last_updated";
  mret [nl +:+ "Stats:";
        "Total citations: " +:+ fmt w citations;
        "h-index: " +:+ fmt w h_index;
        "i10-index: " +:+ fmt w i10_index;
        nl +:+ "Total publications processed: " +:+ dec_nat n;
        "Last updated: " +:+ fmt w last_updated].

(** The state after the first line of [main]. *)
Definition fetching (st : state) : state :=
  State (stdout st ++ ["Fetching publications from Google Scholar..."])
    (dirs st) (files st) (naps st).

(** The titles of a list of publications. *)
Definition titles (pubs : list value) : list (result value) :=
  map (λ p, getitem p "title") pubs.

(** *** A provider with three publications

    The stubs arrive in the order A (2020), B (2022), C (2020). *)
Definition example_stub (year : value) (title : string) : value :=
  VDict [("bib", VDict [("title", VStr title); ("pub_year", year)]);
         ("author_pub_id", VStr ("id-" +:+ title))].

Definition example_author (stubs : list value) : value :=
  VDict [("citedby", VInt 10); ("hindex", VInt 2); ("i10index", VInt 1);
         ("publications", VList stubs)].

Definition example_stubs : list value :=
  [example_stub (VInt 2020) "A"; example_stub (VInt 2022) "B";
   example_stub (VInt 2020) "C"].

#[export] Instance fs_op_eq_dec : EqDecision fs_op.
Proof. solve_decision. Defined.

(** The provider answers [author] and fills every stub but those of
    [failing] indices; the file-system calls of [faults] fail.  The YAML
    emitter is a stand-in. *)
Definition example_world (author : result value) (failing : list nat)
    (faults : list fs_op) : world :=
  World (λ _, author)
        (λ n v, match n with
                | O => Ok v
                | S i => if bool_decide (i ∈ failing)
                         then Raise (Exn ProviderError "Cannot fetch the page")
                         else Ok v
                end)
        "2024-01-01 00:00:00"
        (λ s, sq +:+ s +:+ sq)
        (λ v, "--- " +:+ dumps v)
        (λ op, if bool_decide (op ∈ faults)
               then Some (Exn OSError "[Errno 13] Permission denied") else None)
        (λ _, None).

Definition initial : state := State [] ∅ ∅ 0.

(** The JSON file cannot be opened; the other two sinks meet no fault. *)
Definition json_denied_world : world :=
  example_world (Ok (example_author example_stubs)) [] [Open "publications.json"].

(** The stub C has a year that is not a number. *)
Definition in_press_world : world :=
  example_world
    (Ok (example_author [example_stub (VInt 2020) "A"; example_stub (VInt 2022) "B";
                         example_stub (VStr "in press") "C"])) [] [].

(** A provider that answers from a table: the author, then the filled
    publications by index.  Names are not ASCII, and counts are large. *)
Definition unicode_pub : value :=
  VDict [("bib", VDict [("title", VStr "Été à Zürich");
                        ("author", VStr "José Ñandú and 李雷");
                        ("pub_year", VStr "2021");
                        ("journal", VStr "Revue d'économie")]);
         ("num_citations", VInt 12345678901234567890123);
         ("author_pub_id", VStr "B96GkdgAAAAJ:u5HHmVD_uO8C")].

Definition unicode_author : value :=
  VDict [("citedby", VInt 340282366920938463463374607431768211456);
         ("hindex", VInt 2); ("i10index", VInt 1);
         ("publications", VList [VDict [("author_pub_id", VStr "u5HHmVD_uO8C")]])].

Definition unicode_world : world :=
  World (λ _, Ok (VDict []))
        (λ n _, match n with
                | O => Ok unicode_author
                | S O => Ok unicode_pub
                | _ => Raise (Exn ProviderError "Cannot fetch the page")
                end)
        "2024-01-01 00:00:00"
        (λ s, sq +:+ s +:+ sq)
        (λ v, "--- " +:+ dumps v)
        (λ _, None)
        (λ _, None).

Definition unicode_snapshot : value :=
  Eval vm_compute in
    match (get_author_publications unicode_world "B96GkdgAAAAJ" initial).1 with
    | Ok s => s
    | Raise _ => VNone
    end.

Definition plain_world : world :=
  example_world (Ok (example_author example_stubs)) [] [].

Definition plain_snapshot : value :=
  Eval vm_compute in
    match (get_author_publications plain_world "B96GkdgAAAAJ" initial).1 with
    | Ok s => s
    | Raise _ => VNone
    end.

(** *** Notions for the JSON round trip *)

(** What may follow a value in the text that [dumps] writes: nothing, a
    comma or a new line. *)
Definition delimited (rest : string) : Prop :=
  match rest with
  | EmptyString => True
  | String c _ => c = ","%char ∨ c = ascii_of_nat 10
  end.

Definition no_digit_head (rest : string) : Prop :=
  match rest with String c _ => is_digit c = false | EmptyString => True end.

(** The first character of an encoded value: no white space, and no
    closing bracket. *)
Definition value_head (c : ascii) : Prop :=
  is_ws c = false ∧ Ascii.eqb c "]" = false ∧ Ascii.eqb c "}" = false.

(** The fuel that decoding the encoding of a value takes at most. *)
Fixpoint size (v : value) : nat :=
  match v with
  | VList l => S (foldr (λ x n, S (size x) + n)%nat 0%nat l)
  | VDict d => S (foldr (λ kv n, S (size kv.2) + n)%nat 0%nat d)
  | _ => 1
  end.

Definition items_size (l : list value) : nat :=
  foldr (λ x n, S (size x) + n)%nat 0%nat l.

Definition members_size (d : list (string * value)) : nat :=
  foldr (λ kv n, S (size kv.2) + n)%nat 0%nat d.

(** One [key: value] chunk of an encoded dictionary. *)
Definition member_chunk (level : nat) (kv : string * value) : string :=
  encode_string kv.1 +:+ ": " +:+ encode level kv.2.

(** The decoder reads the encoding of [x] back, at any depth, before any
    delimiter and with any fuel that is enough. *)
Definition parses (x : value) : Prop :=
  ∀ level rest fuel, delimited rest → (size x ≤ fuel)%nat →
    parse_value fuel (encode level x +:+ rest) = Some (x, rest).

(** The values that the provider hands over are well formed. *)
Definition provider_wf (w : world) : Prop :=
  ∀ n v r, fill w n v = Ok r → wf r.

(** The order of the decorated elements: by key. *)
Definition le_key {A : Type} : relation (Z * A) := λ a b, (a.1 ≤ b.1)%Z.

(** Non-increasing order. *)
Definition descending (ys : list Z) : Prop := Sorted (flip Z.le) ys.

(** *** Notions for the further properties *)

(** The shape of a normalised publication: the eight keys, in this order,
    with a string under [url]. *)
Definition is_publication (p : value) : Prop :=
  ∃ title authors venue year citations url abstract id,
    p = VDict [("title", title); ("authors", authors); ("venue", venue);
               ("year", year); ("citations", citations); ("url", VStr url);
               ("abstract", abstract); ("bib_id", id)].

(** The shape of a snapshot. *)
Definition is_snapshot (w : world) (s : value) : Prop :=
  ∃ citations h_index i10_index pubs,
    s = VDict [("stats", VDict [("citations", citations); ("h_index", h_index);
                                ("i10_index", i10_index)]);
               ("publications", VList pubs);
               ("last_updated", VStr (now w))] ∧
    Forall is_publication pubs.

(** The line printed before the stub of index [i] is expanded. *)
Definition progress_line (total i : nat) : string :=
  "Processing publication " +:+ dec_nat (i + 1) +:+ " of " +:+ dec_nat total.

Definition concat_str (chunks : list string) : string :=
  foldr String.append "" chunks.

(** The author record lacks the key [hindex]. *)
Definition no_hindex_world : world :=
  example_world
    (Ok (VDict [("citedby", VInt 10); ("i10index", VInt 1);
                ("publications", VList example_stubs)])) [] [].

(** The provider fills no publication at all. *)
Definition all_failing_world : world :=
  example_world (Ok (example_author example_stubs)) [0; 1; 2]%nat [].

(** The field of a dictionary, [None] standing for a missing one. *)
Definition field (p : value) (k : string) : value :=
  match getitem p k with
  | Ok v => v
  | Raise _ => VNone
  end.

(** The block of the preview for one publication. *)
Definition publication_block (w : world) (p : value) : string :=
  html_publication (fmt w (field p "year")) (fmt w (field p "url"))
    (fmt w (field p "title")) (fmt w (field p "authors"))
    (fmt w (field p "venue")) (fmt w (field p "citations")).

(** The page of the preview for a snapshot. *)
Definition preview_page (w : world) (s : value) : string :=
  html_head
  +:+ html_stats (fmt w (field (field s "stats") "citations"))
        (fmt w (field (field s "stats") "h_index"))
        (fmt w (field (field s "stats") "i10_index"))
  +:+ concat_str (map (publication_block w)
                    (match field s "publications" with VList l => l | _ => [] end))
  +:+ html_footer (fmt w (field s "last_updated")).

(** The writes to the JSON file fail after 10 bytes. *)
Definition disk_full_world : world :=
  World (λ _, Ok (example_author example_stubs)) (λ _ v, Ok v)
        "2024-01-01 00:00:00" (λ s, sq +:+ s +:+ sq) (λ v, "--- " +:+ dumps v)
        (λ _, None)
        (λ path, if String.eqb path "publications.json"
                 then Some (10%nat, Exn OSError "[Errno 28] No space left on device")
                 else None).

(** A working directory in which [_data] is a regular file, and one with
    files of an earlier run. *)
Definition data_is_a_file : state :=
  State [] ∅ {["_data" := "not a directory"]} 0.

Definition earlier_run : state :=
  State [] {["_data"]}
        {["publications.json" := "{}"; "publications_preview.html" := "<html></html>"]} 0.

(** The files of a run without fault. *)
Definition three_files (w : world) (snap : value) (m : gmap string string)
  : gmap string string :=
  <["publications_preview.html" := preview_page w snap]>
    (<["_data/publications.yml" := yaml_dump w snap]>
       (<["publications.json" := dumps snap]> m)).

(** The provider of a later run: one more publication, another clock. *)
Definition later_world : world :=
  World (λ _, Ok (example_author (example_stubs ++ [example_stub (VStr "2024") "D"])))
        (λ _ v, Ok v) "2025-06-30 12:00:00" (λ s, sq +:+ s +:+ sq)
        (λ v, "--- " +:+ dumps v) (λ _, None) (λ _, None).

(** A character that the encoder does not escape: no control character,
    no quote and no backslash. *)
Definition plain_char (c : ascii) : bool :=
  let n := nat_of_ascii c in
  ((32 <=? n) && negb (n =? 34) && negb (n =? 92))%nat.

Fixpoint plain_text (s : string) : bool :=
  match s with
  | EmptyString => true
  | String c s' => plain_char c && plain_text s'
  end.

(** ** Sorting *)

Section sort_facts.
Context {A : Type}.
Implicit Types (x : Z * A) (l : list (Z * A)).

Lemma insert_Permutation x l : insert x l ≡ₚ x :: l.
Proof.
  induction l as [|y l IH]; simpl; [done|].
  case_match; [done|]. rewrite IH. apply Permutation_swap.
Qed.

Lemma stable_sort_Permutation l : stable_sort l ≡ₚ l.
Proof.
  induction l as [|x l IH]; simpl; [done|].
  unfold stable_sort in *. simpl. by rewrite insert_Permutation, IH.
Qed.

Lemma insert_HdRel a x l :
  le_key a x → HdRel le_key a l → HdRel le_key a (insert x l).
Proof.
  intros Hax Hal. destruct l as [|y l]; simpl; [by constructor|].
  case_match; constructor; [done|]. by inv Hal.
Qed.

Lemma insert_Sorted x l : Sorted le_key l → Sorted le_key (insert x l).
Proof.
  induction 1 as [|y l Hl IH Hhd]; simpl.
  - repeat constructor.
  - destruct (Z.leb_spec x.1 y.1).
    + repeat constructor; done.
    + constructor; [done|]. apply insert_HdRel; [|done]. unfold le_key. lia.
Qed.

Lemma stable_sort_Sorted l : Sorted le_key (stable_sort l).
Proof.
  induction l as [|x l IH]; [constructor|].
  unfold stable_sort in *. simpl. by apply insert_Sorted.
Qed.

(** An element is put in front of the elements with its key. *)
Lemma filter_insert (y : Z) x l :
  filter (λ kp, kp.1 = y) (insert x l) = filter (λ kp, kp.1 = y) (x :: l).
Proof.
  induction l as [|z l IH]; simpl; [done|].
  destruct (Z.leb_spec x.1 z.1) as [Hle|Hlt]; [done|].
  rewrite filter_cons, IH, !filter_cons.
  repeat case_decide; try done. lia.
Qed.

Lemma filter_stable_sort (y : Z) l :
  filter (λ kp, kp.1 = y) (stable_sort l) = filter (λ kp, kp.1 = y) l.
Proof.
  induction l as [|x l IH]; [done|].
  unfold stable_sort in *. simpl.
  by rewrite filter_insert, !filter_cons, IH.
Qed.

#[local] Instance le_key_trans : Transitive (@le_key A).
Proof. intros a b c. unfold le_key. lia. Qed.

(** A list has one sorted and stable rearrangement only: what follows
    holds of any stable sort, whatever its algorithm. *)
Lemma sorted_stable_unique l1 l2 :
  StronglySorted le_key l1 → StronglySorted le_key l2 →
  (∀ y, filter (λ kp, kp.1 = y) l1 = filter (λ kp, kp.1 = y) l2) →
  l1 = l2.
Proof.
  intros H1. revert l2. induction H1 as [|a l1 Hs1 IH Hall1]; intros l2 H2 Hf.
  - destruct l2 as [|b l2]; [done|].
    specialize (Hf b.1). by rewrite filter_cons_True in Hf.
  - destruct H2 as [|b l2 Hs2 Hall2].
    { specialize (Hf a.1). by rewrite filter_cons_True in Hf. }
    assert (Hab : (a.1 ≤ b.1)%Z).
    { assert (Hin : b ∈ a :: l1).
      { eapply (list_elem_of_filter (λ kp, kp.1 = b.1)). rewrite Hf.
        rewrite filter_cons_True by done. by left. }
      apply elem_of_cons in Hin as [->|Hin]; [done|].
      rewrite Forall_forall in Hall1. by apply Hall1. }
    assert (Hba : (b.1 ≤ a.1)%Z).
    { assert (Hin : a ∈ b :: l2).
      { eapply (list_elem_of_filter (λ kp, kp.1 = a.1)). rewrite <-Hf.
        rewrite filter_cons_True by done. by left. }
      apply elem_of_cons in Hin as [->|Hin]; [done|].
      rewrite Forall_forall in Hall2. by apply Hall2. }
    assert (Heq : a.1 = b.1) by lia.
    pose proof (Hf a.1) as Hhead.
    rewrite !filter_cons_True in Hhead by done. injection Hhead as -> Htail.
    f_equal. apply IH; [done|]. intros y. destruct (decide (b.1 = y)) as [<-|Hne].
    + done.
    + specialize (Hf y). by rewrite !filter_cons_False in Hf.
Qed.

Lemma stable_sort_unique l l' :
  Sorted le_key l' →
  (∀ y, filter (λ kp, kp.1 = y) l' = filter (λ kp, kp.1 = y) l) →
  l' = stable_sort l.
Proof.
  intros Hs Hf. apply sorted_stable_unique.
  - by apply (Sorted_StronglySorted le_key).
  - apply (Sorted_StronglySorted le_key), stable_sort_Sorted.
  - intros y. by rewrite Hf, filter_stable_sort.
Qed.

Variable key : A → result Z.

Lemma result_mapM_zip (ps : list A) ks :
  result_mapM key ps = Ok ks →
  length ks = length ps ∧ Forall (λ kp, key kp.2 = Ok kp.1) (zip ks ps).
Proof.
  revert ks. induction ps as [|p ps IH]; intros ks; simpl.
  - intros [= <-]. split; [done|constructor].
  - destruct (key p) as [k|] eqn:Hk; simpl; [|done].
    destruct (result_mapM key ps) as [ks'|] eqn:Hks; simpl; [|done].
    intros [= <-]. destruct (IH ks' eq_refl) as [Hlen Hall].
    split; [simpl; congruence|]. by constructor.
Qed.

Lemma result_mapM_decorated (l : list (Z * A)) :
  Forall (λ kp, key kp.2 = Ok kp.1) l → result_mapM key l.*2 = Ok l.*1.
Proof.
  induction 1 as [|[k p] l Hk _ IH]; csimpl in *; [done|].
  by rewrite Hk, IH.
Qed.

Lemma filter_decorated (y : Z) (l : list (Z * A)) :
  Forall (λ kp, key kp.2 = Ok kp.1) l →
  filter (λ p, key p = Ok y) l.*2 = (filter (λ kp, kp.1 = y) l).*2.
Proof.
  induction 1 as [|[k p] l Hk _ IH]; csimpl in *; [done|].
  rewrite !filter_cons, IH. simpl. rewrite Hk.
  repeat case_decide; simplify_eq; done.
Qed.

(** What [sort] with [reverse=True] returns, when it returns. *)
Lemma sort_reverse_spec (ps ps' : list A) :
  sort key true ps = Ok ps' →
  ∃ ks', result_mapM key ps' = Ok ks' ∧ descending ks' ∧ ps' ≡ₚ ps ∧
         ∀ y, filter (λ p, key p = Ok y) ps' = filter (λ p, key p = Ok y) ps.
Proof.
  unfold sort. destruct (result_mapM key ps) as [ks|] eqn:Hks; simpl; [|done].
  intros [= <-]. destruct (result_mapM_zip _ _ Hks) as [Hlen Hdec].
  set (D := zip ks ps) in *. set (L := reverse (stable_sort (reverse D))).
  assert (HLD : L ≡ₚ D).
  { unfold L. by rewrite reverse_Permutation, stable_sort_Permutation,
      reverse_Permutation. }
  assert (HL : Forall (λ kp, key kp.2 = Ok kp.1) L) by by rewrite HLD.
  assert (HD2 : D.*2 = ps) by (apply snd_zip; lia).
  exists L.*1. split_and!.
  - by apply result_mapM_decorated.
  - unfold descending, L. rewrite fmap_reverse. apply Sorted_reverse.
    eapply (Sorted_fmap fst le_key Z.le); [|apply stable_sort_Sorted]. done.
  - by rewrite HLD, HD2.
  - intros y. rewrite (filter_decorated _ _ HL). unfold L.
    rewrite filter_reverse, filter_stable_sort, filter_reverse, reverse_involutive.
    by rewrite <-(filter_decorated _ _ Hdec), HD2.
Qed.

(** [sort] returns exactly when the key of every element is defined. *)
Lemma sort_is_ok (rev_ : bool) (ps : list A) :
  is_ok (sort key rev_ ps) = forallb (λ p, is_ok (key p)) ps.
Proof.
  unfold sort. induction ps as [|p ps IH]; simpl; [done|].
  destruct (key p); simpl; [|done].
  destruct (result_mapM key ps); simpl in *; done.
Qed.

Lemma sort_all_ok (rev_ : bool) (ps : list A) :
  Forall (λ p, is_ok (key p) = true) ps → ∃ ps', sort key rev_ ps = Ok ps'.
Proof.
  intros Hall. pose proof (sort_is_ok rev_ ps) as Hok.
  destruct (sort key rev_ ps) as [ps'|e]; [by eauto|]. exfalso.
  simpl in Hok. induction Hall as [|p ps Hp _ IH]; simpl in *; [done|].
  rewrite Hp in Hok. auto.
Qed.

Lemma sort_ok_all (rev_ : bool) (ps ps' : list A) :
  sort key rev_ ps = Ok ps' → Forall (λ p, is_ok (key p) = true) ps.
Proof.
  intros H. pose proof (sort_is_ok rev_ ps) as Hok. rewrite H in Hok.
  simpl in Hok. clear H. induction ps as [|p ps IH]; [constructor|].
  simpl in Hok. destruct (is_ok (key p)) eqn:Hp; [|done].
  constructor; [done|]. by apply IH.
Qed.

Lemma sort_some_raise (rev_ : bool) (ps : list A) p e :
  p ∈ ps → key p = Raise e → ∃ e', sort key rev_ ps = Raise e'.
Proof.
  intros Hin Hp. pose proof (sort_is_ok rev_ ps) as Hok.
  destruct (sort key rev_ ps) as [ps'|e']; [|by eauto]. exfalso.
  simpl in Hok. induction Hin as [p ps|p q ps _ IH]; simpl in *.
  - by rewrite Hp in Hok.
  - destruct (is_ok (key q)); simpl in *; [auto|done].
Qed.

Lemma sort_raise (rev_ : bool) (ps : list A) e :
  sort key rev_ ps = Raise e → ∃ p, p ∈ ps ∧ key p = Raise e.
Proof.
  unfold sort. induction ps as [|p ps IH]; simpl; [done|].
  destruct (key p) eqn:Hp; simpl.
  - destruct (result_mapM key ps); simpl in *; [done|].
    intros [= ->]. destruct IH as (q & ? & ?); [done|].
    exists q. split; [by right|done].
  - intros [= ->]. exists p. split; [by left|done].
Qed.
End sort_facts.

(** ** Running the script *)

Ltac run :=
  unfold mbind, mret, M_bind, M_ret, result_mbind, result_ret,
    bind, ret, lift, try_except, print, sleep in *; simpl in *.

Lemma bind_run {A B} (m : M A) (k : A → M B) st :
  (m ≫= k) st = match m st with
                | (Ok a, st') => k a st'
                | (Raise e, st') => (Raise e, st')
                end.
Proof. done. Qed.

Lemma seq_assoc {A B C} (m1 : M A) (m2 : M B) (k : M C) st :
  (m1 ;; m2 ;; k) st = ((m1 ;; m2) ;; k) st.
Proof. rewrite !bind_run. by destruct (m1 st) as [[]]. Qed.

Lemma try_except_run {A} (body : M A) handler st :
  try_except body handler st = match body st with
                               | (Ok a, st') => (Ok a, st')
                               | (Raise e, st') => handler e st'
                               end.
Proof. done. Qed.

Lemma lift_bind_run {A B} (r : result A) (k : A → M B) st :
  (lift r ≫= k) st = match r with
                     | Ok a => k a st
                     | Raise e => (Raise e, st)
                     end.
Proof. rewrite bind_run. by destruct r. Qed.

Lemma print_run line st :
  print line st = (Ok (), State (stdout st ++ [line]) (dirs st) (files st) (naps st)).
Proof. done. Qed.

Lemma only_printed_refl st : only_printed st st [].
Proof. unfold only_printed. by rewrite app_nil_r. Qed.

Lemma only_printed_trans st1 st2 st3 out1 out2 :
  only_printed st1 st2 out1 → only_printed st2 st3 out2 →
  only_printed st1 st3 (out1 ++ out2).
Proof.
  intros (H1 & H2 & H3) (H4 & H5 & H6). unfold only_printed.
  rewrite H4, H1, H5, H2, H6, H3. by rewrite app_assoc.
Qed.

Ltac early_exit :=
  eexists _, []; split; [reflexivity|]; unfold only_printed; simpl; done.

Section run_facts.
Variable w : world.

(** The loop never raises: a stub whose expansion fails is reported and
    skipped, the others are appended in order. *)
Lemma process_run (pubs : list value) :
  ∀ total i acc st, ∃ st' out,
    process w total i pubs acc st = (Ok (acc ++ expanded w i pubs), st') ∧
    only_printed st st' out.
Proof.
  induction pubs as [|pub pubs IH]; intros total i acc st; simpl.
  - exists st, []. rewrite app_nil_r. split; [done|apply only_printed_refl].
  - run. destruct (expand w i pub) as [d|e] eqn:Hd.
    + edestruct (IH total (S i) (acc ++ [d])) as (st' & out & -> & Hp).
      do 2 eexists. rewrite <-app_assoc. split; [done|].
      eapply (only_printed_trans _ _ _ [_]); [|exact Hp]. done.
    + edestruct (IH total (S i) acc) as (st' & out & -> & Hp).
      do 2 eexists. split; [done|].
      eapply (only_printed_trans _ _ _ [_; _]); [|exact Hp].
      unfold only_printed; simpl. by rewrite <-app_assoc.
Qed.

(** [get_author_publications] never raises; it returns the snapshot, or
    [None] after one line of report, and leaves the files alone. *)
Lemma get_author_publications_run (scholar_id : string) (st : state) :
  ∃ st' out,
    get_author_publications w scholar_id st
    = (Ok (match snapshot w scholar_id with Ok s => s | Raise _ => VNone end), st') ∧
    only_printed st st'
      (out ++ match snapshot w scholar_id with
              | Ok _ => []
              | Raise e => ["Error fetching author data: " +:+ exn_str e]
              end).
Proof.
  unfold get_author_publications, snapshot, author_of, stats_of, stubs_of. run.
  destruct (search_author_id w scholar_id) as [a0|e]; simpl;
    [|early_exit].
  destruct (fill w 0 a0) as [author|e]; simpl; [|early_exit].
  destruct (getitem author "citedby") as [c|e]; simpl; [|early_exit].
  destruct (getitem author "hindex") as [h|e]; simpl; [|early_exit].
  destruct (getitem author "i10index") as [i10|e]; simpl; [|early_exit].
  destruct (getitem author "publications") as [pubs|e]; simpl; [|early_exit].
  destruct (iter pubs) as [items|e]; simpl; [|early_exit].
  destruct (process_run items (length items) 0 [] st) as (st' & out & -> & Hp).
  simpl. destruct (sort (year_key w) true (expanded w 0 items)) as [sorted|e]; simpl.
  - exists st', out. by rewrite app_nil_r.
  - eexists _, out. split; [done|].
    eapply only_printed_trans; [exact Hp|]. done.
Qed.

(** *** The sinks *)

Lemma open_write_ok path text st :
  writable w st path →
  (open_w w path ;; write w path text) st
  = (Ok (), State (stdout st) (dirs st) (<[path := text]> (files st)) (naps st)).
Proof.
  intros (Hf & Hw & Hd & Hp). unfold open_w, write. run.
  rewrite Hf. rewrite decide_False by done. rewrite decide_True by done.
  simpl. rewrite Hw, lookup_insert_eq. simpl. by rewrite insert_insert_eq.
Qed.

(** Opening and writing touch no other file and no directory. *)
Lemma open_write_frame path text st :
  ∃ r st', (open_w w path ;; write w path text) st = (r, st') ∧
           stdout st' = stdout st ∧ dirs st' = dirs st ∧
           ∀ p, p ≠ path → files st' !! p = files st !! p.
Proof.
  unfold open_w, write. run.
  destruct (fault w (Open path)); [by eauto 10|].
  case_decide; [by eauto 10|]. case_decide; [|by eauto 10]. simpl.
  destruct (write_fault w path) as [[n e]|]; do 2 eexists; (split; [done|]);
    simpl; split_and!; try done; intros p Hp; by rewrite !lookup_insert_ne.
Qed.

Lemma save_publications_run data path st :
  ∃ st', save_publications w data path st = (Ok (), st') ∧
         dirs st' = dirs st ∧
         reported st st' path ("Successfully saved publications to " +:+ path)
           "Error saving publications: ".
Proof.
  unfold save_publications.
  destruct (open_write_frame path (dumps data) st) as (r & st1 & Hrun & Ho & Hd & Hf).
  rewrite try_except_run, seq_assoc, bind_run, Hrun.
  destruct r as [[]|e]; simpl; eexists; (split; [done|]);
    simpl; (split; [done|]); (split; [|done]); rewrite Ho; eauto.
Qed.

Lemma save_publications_ok data path st :
  writable w st path →
  save_publications w data path st
  = (Ok (), State (stdout st ++ ["Successfully saved publications to " +:+ path])
              (dirs st) (<[path := dumps data]> (files st)) (naps st)).
Proof.
  intros Hw. unfold save_publications.
  by rewrite try_except_run, seq_assoc, bind_run, open_write_ok.
Qed.

Lemma save_publications_for_jekyll_run data path st :
  ∃ st', save_publications_for_jekyll w data path st = (Ok (), st') ∧
         (dirs st' = dirs st ∨ dirs st' = {["_data"]} ∪ dirs st) ∧
         reported st st' path ("Successfully saved publications to " +:+ path)
           "Error saving publications: ".
Proof.
  unfold save_publications_for_jekyll, reported.
  rewrite try_except_run, bind_run. unfold makedirs at 1.
  destruct (fault w (Makedirs "_data")) as [e|]; [rewrite print_run; by eauto 10|].
  case_decide; [rewrite print_run; by eauto 10|].
  rewrite lift_bind_run.
  destruct (getitem data "stats") as [stats|e]; [|rewrite print_run; by eauto 10].
  rewrite lift_bind_run.
  destruct (getitem data "publications") as [pubs|e]; [|rewrite print_run; by eauto 10].
  rewrite lift_bind_run.
  destruct (getitem data "last_updated") as [upd|e]; [|rewrite print_run; by eauto 10].
  rewrite seq_assoc, bind_run.
  match goal with |- context [(open_w w path ;; write w path ?t) ?s] =>
    destruct (open_write_frame path t s) as (r & st1 & -> & Ho & Hd & Hf) end.
  simpl in *. destruct r as [[]|e]; rewrite print_run, Ho, Hd; eauto 10.
Qed.

Lemma save_publications_for_jekyll_ok data path stats pubs upd st :
  getitem data "stats" = Ok stats →
  getitem data "publications" = Ok pubs →
  getitem data "last_updated" = Ok upd →
  fault w (Makedirs "_data") = None →
  files st !! "_data" = None →
  writable w (State (stdout st) ({["_data"]} ∪ dirs st) (files st) (naps st)) path →
  save_publications_for_jekyll w data path st
  = (Ok (), State (stdout st ++ ["Successfully saved publications to " +:+ path])
              ({["_data"]} ∪ dirs st)
              (<[path := yaml_dump w (VDict [("stats", stats);
                                              ("publications", pubs);
                                              ("last_updated", upd)])]> (files st))
              (naps st)).
Proof.
  intros Hs Hp Hu Hm Hf Hw. unfold save_publications_for_jekyll.
  rewrite try_except_run, bind_run. unfold makedirs at 1. rewrite Hm, Hf.
  rewrite decide_False by (by intros [? ?]).
  rewrite lift_bind_run, Hs, lift_bind_run, Hp, lift_bind_run, Hu.
  by rewrite seq_assoc, bind_run, open_write_ok.
Qed.

Lemma generate_html_preview_run data path st :
  ∃ st', generate_html_preview w data path st = (Ok (), st') ∧
         dirs st' = dirs st ∧
         reported st st' path ("Successfully generated HTML preview at " +:+ path)
           "Error generating HTML preview: ".
Proof.
  unfold generate_html_preview, reported.
  rewrite try_except_run, lift_bind_run.
  destruct (render w data) as [html|e]; [|rewrite print_run; by eauto 10].
  rewrite seq_assoc, bind_run.
  destruct (open_write_frame path html st) as (r & st1 & -> & Ho & Hd & Hf).
  destruct r as [[]|e]; rewrite print_run; simpl; rewrite Ho, Hd; eauto 10.
Qed.

Lemma generate_html_preview_ok data path html st :
  render w data = Ok html →
  writable w st path →
  generate_html_preview w data path st
  = (Ok (), State (stdout st ++ ["Successfully generated HTML preview at " +:+ path])
              (dirs st) (<[path := html]> (files st)) (naps st)).
Proof.
  intros Hr Hw. unfold generate_html_preview.
  by rewrite try_except_run, lift_bind_run, Hr, seq_assoc, bind_run, open_write_ok.
Qed.
End run_facts.

(** ** The snapshot and [main] *)

Lemma getitem_here k v d : getitem (VDict ((k, v) :: d)) k = Ok v.
Proof. simpl. by rewrite decide_True. Qed.

Lemma getitem_next k k' v d :
  k ≠ k' → getitem (VDict ((k', v) :: d)) k = getitem (VDict d) k.
Proof. intros. simpl. by rewrite decide_False. Qed.

Lemma getitem_dict v k x : getitem v k = Ok x → ∃ d, v = VDict d ∧ dict_lookup k d = Some x.
Proof.
  destruct v; simpl; try done. destruct (dict_lookup k d) eqn:E; [|done].
  intros [= ->]. eauto.
Qed.

Lemma snapshot_inv w scholar_id s :
  snapshot w scholar_id = Ok s →
  ∃ author stubs c h i sorted,
    author_of w scholar_id = Ok author ∧
    getitem author "citedby" = Ok c ∧
    getitem author "hindex" = Ok h ∧
    getitem author "i10index" = Ok i ∧
    stubs_of author = Ok stubs ∧
    sort (year_key w) true (expanded w 0 stubs) = Ok sorted ∧
    s = VDict [("stats", VDict [("citations", c); ("h_index", h); ("i10_index", i)]);
               ("publications", VList sorted);
               ("last_updated", VStr (now w))].
Proof.
  unfold snapshot, stats_of. run.
  destruct (author_of w scholar_id) as [author|]; simpl; [|done].
  destruct (getitem author "citedby") as [c|] eqn:Hc; simpl; [|done].
  destruct (getitem author "hindex") as [h|] eqn:Hh; simpl; [|done].
  destruct (getitem author "i10index") as [i|] eqn:Hi; simpl; [|done].
  destruct (stubs_of author) as [stubs|] eqn:Hst; simpl; [|done].
  destruct (sort _ _ _) as [sorted|] eqn:Hs; simpl; [|done].
  intros [= <-]. exists author, stubs, c, h, i, sorted. done.
Qed.

Lemma snapshot_truthy w scholar_id s : snapshot w scholar_id = Ok s → truthy s = true.
Proof. intros (?&?&?&?&?&?&?&?&?&?&?&?& ->)%snapshot_inv. done. Qed.

Section main_facts.
Variable w : world.

Lemma summary_ok s : snapshot w "B96GkdgAAAAJ" = Ok s → ∃ lines, summary w s = Ok lines.
Proof.
  intros (?&?&?&?&?&?&?&?&?&?&?&?& ->)%snapshot_inv.
  unfold summary. run. eauto.
Qed.

(** With a snapshot, [main] runs the three sinks one after the other, each
    from the state the previous one left, and then prints the summary. *)
Lemma main_snapshot s st :
  snapshot w "B96GkdgAAAAJ" = Ok s →
  ∃ st1 st2 st3 st4 lines,
    get_author_publications w "B96GkdgAAAAJ" (fetching st) = (Ok s, st1) ∧
    save_publications w s "publications.json" st1 = (Ok (), st2) ∧
    save_publications_for_jekyll w s "_data/publications.yml" st2 = (Ok (), st3) ∧
    generate_html_preview w s "publications_preview.html" st3 = (Ok (), st4) ∧
    summary w s = Ok lines ∧
    main w st = (Ok (), State (stdout st4 ++ lines) (dirs st4) (files st4) (naps st4)).
Proof.
  intros Hs.
  destruct (get_author_publications_run w "B96GkdgAAAAJ" (fetching st))
    as (st1 & out & Hg & Hp).
  rewrite Hs in Hg, Hp.
  destruct (save_publications_run w s "publications.json" st1) as (st2 & H2 & _).
  destruct (save_publications_for_jekyll_run w s "_data/publications.yml" st2)
    as (st3 & H3 & _).
  destruct (generate_html_preview_run w s "publications_preview.html" st3)
    as (st4 & H4 & _).
  destruct (summary_ok s Hs) as (lines & Hl).
  exists st1, st2, st3, st4, lines. split_and!; try done.
  unfold main. rewrite bind_run, print_run. fold (fetching st).
  rewrite bind_run, Hg, (snapshot_truthy _ _ _ Hs).
  rewrite bind_run, H2, bind_run, H3, bind_run, H4.
  apply snapshot_inv in Hs as (?&?&?&?&?&?&?&?&?&?&?&?& ->).
  unfold summary in Hl. run. simplify_eq. simpl.
  by rewrite <-!app_assoc.
Qed.

(** Without one, it prints that the fetch failed and stops. *)
Lemma main_no_snapshot e st :
  snapshot w "B96GkdgAAAAJ" = Raise e →
  ∃ st1 out,
    get_author_publications w "B96GkdgAAAAJ" (fetching st) = (Ok VNone, st1) ∧
    only_printed (fetching st) st1 (out ++ ["Error fetching author data: " +:+ exn_str e]) ∧
    main w st = (Ok (), State (stdout st1 ++ ["Failed to fetch publications"])
                          (dirs st1) (files st1) (naps st1)).
Proof.
  intros Hs.
  destruct (get_author_publications_run w "B96GkdgAAAAJ" (fetching st))
    as (st1 & out & Hg & Hp).
  rewrite Hs in Hg, Hp. exists st1, out. split_and!; try done.
  unfold main. rewrite bind_run, print_run. fold (fetching st).
  by rewrite bind_run, Hg.
Qed.
End main_facts.

(** ** The JSON text is read back *)

Lemma append_assoc (a b c : string) : (a +:+ b) +:+ c = a +:+ b +:+ c.
Proof. induction a as [|x a IH]; [done|]. change (String x ((a +:+ b) +:+ c) = String x (a +:+ b +:+ c)). by f_equal. Qed.

Lemma append_cons x (a b : string) : String x a +:+ b = String x (a +:+ b).
Proof. done. Qed.

Lemma scan_escape_char c t :
  scan_string (escape_char c +:+ t)
  = '(r, rest) ← scan_string t; Some (String c r, rest).
Proof.
  destruct c as [[] [] [] [] [] [] [] []]; reflexivity.
Qed.

Lemma scan_string_escape s rest :
  scan_string (escape s +:+ dq +:+ rest) = Some (s, rest).
Proof.
  induction s as [|c s IH]; [done|].
  change (escape (String c s)) with (escape_char c +:+ escape s).
  rewrite append_assoc, scan_escape_char, IH. done.
Qed.

Lemma span_digits_uint d rest :
  no_digit_head rest →
  span_digits (NilEmpty.string_of_uint d +:+ rest) = (NilEmpty.string_of_uint d, rest).
Proof.
  intros Hr. induction d; simpl NilEmpty.string_of_uint; rewrite ?append_cons;
    try (cbn [span_digits]; change (is_digit _) with true; cbv iota; by rewrite IHd).
  destruct rest as [|c r]; [done|]. simpl in *. by rewrite Hr.
Qed.

Lemma to_uint_head p : ∃ c t, NilEmpty.string_of_uint (Pos.to_uint p) = String c t ∧
  Ascii.eqb c "0" = false ∧ is_digit c = true.
Proof.
  pose proof (DecimalPos.Unsigned.to_uint_nonnil p) as Hnil.
  assert (Hnorm : Decimal.unorm (Pos.to_uint p) = Pos.to_uint p).
  { rewrite <-(DecimalPos.Unsigned.to_of (Pos.to_uint p)), DecimalPos.Unsigned.of_to. done. }
  destruct (Pos.to_uint p) as [|d|d|d|d|d|d|d|d|d|d] eqn:E; try done;
    try (simpl; do 2 eexists; split; [reflexivity|done]).
  exfalso. unfold Decimal.unorm in Hnorm. 
  destruct (Decimal.nzhead (Decimal.D0 d)) eqn:Hz; try discriminate Hnorm.
  - injection Hnorm as <-. by apply (DecimalPos.Unsigned.to_uint_nonzero p).
  - exact (DecimalFacts.nzhead_nonzero _ _ Hz).
Qed.

Lemma delimited_no_digit rest : delimited rest → no_digit_head rest.
Proof. destruct rest as [|c r]; [done|]. by intros [->| ->]. Qed.

Lemma delimited_float_tail rest : delimited rest → float_tail rest = false.
Proof. destruct rest as [|c r]; [done|]. by intros [->| ->]. Qed.

Lemma scan_nat_pos p rest :
  delimited rest →
  scan_nat (NilEmpty.string_of_uint (Pos.to_uint p) +:+ rest) = Some (Npos p, rest).
Proof.
  intros Hr. destruct (to_uint_head p) as (c & t & Hs & Hc & Hd).
  pose proof (span_digits_uint (Pos.to_uint p) rest (delimited_no_digit _ Hr)) as Hspan.
  rewrite Hs in *. rewrite append_cons in *.
  unfold scan_nat. rewrite Hc, Hd, Hspan, <-Hs.
  assert (NilEmpty.string_of_uint (Pos.to_uint p)
          = NilZero.string_of_uint (Pos.to_uint p)) as ->.
  { pose proof (DecimalPos.Unsigned.to_uint_nonnil p).
    unfold NilZero.string_of_uint. by destruct (Pos.to_uint p). }
  rewrite NilZero.usu by apply DecimalPos.Unsigned.to_uint_nonnil. simpl.
  unfold N.of_uint. by rewrite DecimalPos.Unsigned.of_to.
Qed.

Lemma scan_number_dec z rest :
  delimited rest → scan_number (dec z +:+ rest) = Some (VInt z, rest).
Proof.
  intros Hr. unfold dec. destruct z as [|p|p]; simpl Z.to_int.
  - change (scan_number (String "0" rest) = Some (VInt 0, rest)).
    unfold scan_number. change (Ascii.eqb "0" "-") with false. cbv iota.
    unfold scan_nat. change (Ascii.eqb "0" "0") with true. cbv iota.
    simpl. by rewrite delimited_float_tail.
  - pose proof (DecimalPos.Unsigned.to_uint_nonnil p).
    assert (NilZero.string_of_int (Decimal.Pos (Pos.to_uint p))
            = NilEmpty.string_of_uint (Pos.to_uint p)) as ->.
    { unfold NilZero.string_of_int, NilZero.string_of_uint.
      by destruct (Pos.to_uint p). }
    destruct (to_uint_head p) as (c & t & Hs & Hc & Hd).
    pose proof (scan_nat_pos p rest Hr) as Hn.
    rewrite Hs in *. rewrite append_cons in *.
    unfold scan_number.
    assert (Ascii.eqb c "-" = false) as ->.
    { destruct c as [[] [] [] [] [] [] [] []]; done. }
    rewrite Hn. simpl. by rewrite delimited_float_tail.
  - assert (NilZero.string_of_int (Decimal.Neg (Pos.to_uint p))
            = String "-" (NilEmpty.string_of_uint (Pos.to_uint p))) as ->.
    { pose proof (DecimalPos.Unsigned.to_uint_nonnil p).
      unfold NilZero.string_of_int, NilZero.string_of_uint.
      by destruct (Pos.to_uint p). }
    rewrite append_cons. unfold scan_number.
    change (Ascii.eqb "-" "-") with true. cbv iota.
    rewrite scan_nat_pos by done. simpl. by rewrite delimited_float_tail.
Qed.

Lemma skip_ws_head c t : is_ws c = false → skip_ws (String c t) = String c t.
Proof. intros H. simpl. by rewrite H. Qed.

Lemma skip_ws_spaces n t : skip_ws (spaces n +:+ t) = skip_ws t.
Proof. induction n as [|n IH]; [done|]. exact IH. Qed.

Lemma skip_ws_newline_indent k t : skip_ws (newline_indent k +:+ t) = skip_ws t.
Proof.
  unfold newline_indent. rewrite append_assoc.
  change (skip_ws (spaces (2 * k) +:+ t) = skip_ws t). apply skip_ws_spaces.
Qed.

Lemma newline_indent_delimited k t : delimited (newline_indent k +:+ t).
Proof. by right. Qed.

Lemma dec_head z :
  ∃ c t, dec z = String c t ∧ (is_digit c = true ∨ c = "-"%char).
Proof.
  destruct z as [|p|p].
  - exists "0"%char, "". split; [done|by left].
  - destruct (to_uint_head p) as (c & t & Hs & _ & Hd).
    exists c, t. split; [|by left]. rewrite <-Hs.
    unfold dec, NilZero.string_of_int, NilZero.string_of_uint. simpl.
    pose proof (DecimalPos.Unsigned.to_uint_nonnil p). by destruct (Pos.to_uint p).
  - eexists "-"%char, _. split; [|by right].
    unfold dec, NilZero.string_of_int. simpl. done.
Qed.

Lemma number_head c : is_digit c = true ∨ c = "-"%char → value_head c.
Proof. destruct c as [[] [] [] [] [] [] [] []]; intros [?|?]; done. Qed.

Lemma parse_value_number n c r :
  is_digit c = true ∨ c = "-"%char →
  parse_value (S n) (String c r) = scan_number (String c r).
Proof. destruct c as [[] [] [] [] [] [] [] []]; intros [?|?]; done. Qed.

Lemma encode_head level v : ∃ c t, encode level v = String c t ∧ value_head c.
Proof.
  destruct v as [|[]|z|s|[|x l]|[|kv d]]; try (by do 2 eexists).
  destruct (dec_head z) as (c & t & Hs & Hc).
  exists c, t. split; [done|]. by apply number_head.
Qed.

Lemma wf_list l : wf (VList l) ↔ Forall wf l.
Proof.
  induction l as [|x l IH]; [done|].
  change (wf (VList (x :: l))) with (wf x ∧ wf (VList l)).
  rewrite Forall_cons. by rewrite IH.
Qed.

Lemma wf_dict d : wf (VDict d) ↔ NoDup d.*1 ∧ Forall (λ kv, wf kv.2) d.
Proof.
  change (wf (VDict d)) with
    (NoDup d.*1 ∧ (fix go (d : list (string * value)) : Prop :=
                     match d with [] => True | kv :: d' => wf kv.2 ∧ go d' end) d).
  apply and_iff_compat_l. induction d as [|kv d IH]; [done|].
  rewrite Forall_cons. by rewrite IH.
Qed.

Lemma dict_set_fresh k v (d : list (string * value)) :
  k ∉ d.*1 → dict_set k v d = d ++ [(k, v)].
Proof.
  induction d as [|[k' v'] d IH]; [done|]. csimpl.
  rewrite not_elem_of_cons. intros [Hne Hnin].
  rewrite decide_False by done. by rewrite IH.
Qed.

Lemma dict_of_pairs_NoDup (d : list (string * value)) :
  NoDup d.*1 → dict_of_pairs d = d.
Proof.
  unfold dict_of_pairs.
  assert (∀ acc, NoDup (acc.*1 ++ d.*1) →
                 foldl (λ d kv, dict_set kv.1 kv.2 d) acc d = acc ++ d) as H.
  { induction d as [|[k v] d IH]; intros acc; csimpl.
    - intros _. by rewrite app_nil_r.
    - intros Hnd. rewrite dict_set_fresh.
      + rewrite IH; [by rewrite <-app_assoc|].
        rewrite fmap_app. csimpl. by rewrite <-app_assoc.
      + apply NoDup_app in Hnd as (_ & Hd & _). intros Hk. apply (Hd k Hk). by left. }
  intros Hnd. by apply (H []).
Qed.

Lemma separated_cons sep x y l :
  separated sep (x :: y :: l) = x +:+ sep +:+ separated sep (y :: l).
Proof. done. Qed.

Lemma items_head sep level y (l : list value) rest :
  ∃ c t, separated sep (map (encode level) (y :: l)) +:+ rest = String c t ∧ value_head c.
Proof.
  destruct (encode_head level y) as (c & t & Hy & Hc).
  destruct l as [|z l].
  - change (separated sep (map (encode level) [y])) with (encode level y).
    rewrite Hy. by exists c, (t +:+ rest).
  - change (map (encode level) (y :: z :: l))
      with (encode level y :: encode level z :: map (encode level) l).
    rewrite separated_cons, Hy. by eexists c, _.
Qed.

Lemma parse_value_unfold n c r :
  parse_value (S n) (String c r) =
          if Ascii.eqb c (ascii_of_nat 34) then
            '(t, r') ← scan_string r; Some (VStr t, r')
          else if Ascii.eqb c "{"%char then
            match skip_ws r with
            | String c' r' =>
                if Ascii.eqb c' "}"%char then Some (VDict [], r')
                else '(d, r'') ← parse_members n (String c' r');
                     Some (VDict (dict_of_pairs d), r'')
            | EmptyString => None
            end
          else if Ascii.eqb c "["%char then
            match skip_ws r with
            | String c' r' =>
                if Ascii.eqb c' "]"%char then Some (VList [], r')
                else '(l, r'') ← parse_items n (String c' r'); Some (VList l, r'')
            | EmptyString => None
            end
          else if Ascii.eqb c "n"%char then
            r' ← strip_prefix "ull" r; Some (VNone, r')
          else if Ascii.eqb c "t"%char then
            r' ← strip_prefix "rue" r; Some (VBool true, r')
          else if Ascii.eqb c "f"%char then
            r' ← strip_prefix "alse" r; Some (VBool false, r')
          else scan_number (String c r).
Proof. done. Qed.

Lemma parse_items_unfold n s :
  parse_items (S n) s =
      '(v, r) ← parse_value n s;
      match skip_ws r with
      | String c r' =>
          if Ascii.eqb c "]"%char then Some ([v], r')
          else if Ascii.eqb c ","%char then
            '(l, r'') ← parse_items n (skip_ws r'); Some (v :: l, r'')
          else None
      | EmptyString => None
      end.
Proof. done. Qed.

Lemma parse_members_unfold n q r :
  parse_members (S n) (String q r) =
          if Ascii.eqb q (ascii_of_nat 34) then
            '(k, r1) ← scan_string r;
            match skip_ws r1 with
            | String c r2 =>
                if Ascii.eqb c ":"%char then
                  '(v, r3) ← parse_value n (skip_ws r2);
                  match skip_ws r3 with
                  | String c' r4 =>
                      if Ascii.eqb c' "}"%char then Some ([(k, v)], r4)
                      else if Ascii.eqb c' ","%char then
                        '(d, r5) ← parse_members n (skip_ws r4);
                        Some ((k, v) :: d, r5)
                      else None
                  | EmptyString => None
                  end
                else None
            | EmptyString => None
            end
          else None.
Proof. done. Qed.

Lemma option_bind_some {A B} (f : A → option B) a : (Some a ≫= f) = f a.
Proof. done. Qed.

Ltac step := rewrite option_bind_some; cbv beta iota.

Lemma parse_items_encode level rest (l : list value) :
  Forall parses l → l ≠ [] →
  ∀ fuel, (items_size l ≤ fuel)%nat →
  parse_items fuel
    (separated ("," +:+ newline_indent (S level)) (map (encode (S level)) l)
     +:+ newline_indent level +:+ "]" +:+ rest)
  = Some (l, rest).
Proof.
  induction 1 as [|x l Hx Hl IH]; [done|]. intros _ fuel Hfuel.
  destruct fuel as [|n]; [simpl in Hfuel; lia|].
  simpl in Hfuel. rewrite parse_items_unfold.
  destruct l as [|y l'].
  - change (separated _ (map _ [x])) with (encode (S level) x).
    rewrite Hx; [|apply newline_indent_delimited|lia].
    step. rewrite skip_ws_newline_indent. done.
  - change (map (encode (S level)) (x :: y :: l'))
      with (encode (S level) x :: encode (S level) y :: map (encode (S level)) l').
    destruct (items_head ("," +:+ newline_indent (S level)) (S level) y l'
                (newline_indent level +:+ "]" +:+ rest)) as (c & t & Hh & Hc).
    rewrite separated_cons, !append_assoc.
    change (encode (S level) y :: map (encode (S level)) l')
      with (map (encode (S level)) (y :: l')).
    rewrite Hx; [|by left|lia].
    step. rewrite append_cons, skip_ws_head by done.
    change (Ascii.eqb "," "]") with false. change (Ascii.eqb "," ",") with true.
    cbv iota. change ("" +:+ ?s) with s.
    rewrite skip_ws_newline_indent.
    rewrite Hh, skip_ws_head by apply Hc. rewrite <-Hh.
    rewrite IH; [done|done|]. simpl in *. lia.
Qed.

Lemma member_chunk_eq level k v R :
  member_chunk level (k, v) +:+ R
  = String (ascii_of_nat 34) (escape k +:+ dq +:+ String ":" (String " " (encode level v +:+ R))).
Proof. unfold member_chunk, encode_string. simpl. by rewrite !append_assoc. Qed.

Lemma skip_ws_encode level v R : skip_ws (encode level v +:+ R) = encode level v +:+ R.
Proof.
  destruct (encode_head level v) as (c & t & -> & Hc & _).
  by rewrite append_cons, skip_ws_head.
Qed.

Lemma parse_members_encode level rest (d : list (string * value)) :
  Forall (λ kv, parses kv.2) d → d ≠ [] →
  ∀ fuel, (members_size d ≤ fuel)%nat →
  parse_members fuel
    (separated ("," +:+ newline_indent (S level)) (map (member_chunk (S level)) d)
     +:+ newline_indent level +:+ "}" +:+ rest)
  = Some (d, rest).
Proof.
  induction 1 as [|[k v] d Hx Hd IH]; [done|]. intros _ fuel Hfuel.
  destruct fuel as [|n]; [simpl in Hfuel; lia|].
  simpl in Hfuel, Hx.
  destruct d as [|[k' v'] d'].
  - change (separated _ (map _ [(k, v)])) with (member_chunk (S level) (k, v)).
    rewrite member_chunk_eq, parse_members_unfold.
    change (Ascii.eqb (ascii_of_nat 34) (ascii_of_nat 34)) with true. cbv iota.
    rewrite scan_string_escape. step. rewrite skip_ws_head by done.
    change (Ascii.eqb ":" ":") with true. cbv iota.
    change (skip_ws (String " " ?s)) with (skip_ws s).
    rewrite skip_ws_encode, Hx; [|apply newline_indent_delimited|lia].
    step. rewrite skip_ws_newline_indent. done.
  - change (map (member_chunk (S level)) ((k, v) :: (k', v') :: d'))
      with (member_chunk (S level) (k, v) :: member_chunk (S level) (k', v')
            :: map (member_chunk (S level)) d').
    rewrite separated_cons, !append_assoc.
    change (member_chunk (S level) (k', v') :: map (member_chunk (S level)) d')
      with (map (member_chunk (S level)) ((k', v') :: d')).
    rewrite member_chunk_eq, parse_members_unfold.
    change (Ascii.eqb (ascii_of_nat 34) (ascii_of_nat 34)) with true. cbv iota.
    rewrite scan_string_escape. step. rewrite skip_ws_head by done.
    change (Ascii.eqb ":" ":") with true. cbv iota.
    change (skip_ws (String " " ?s)) with (skip_ws s).
    rewrite skip_ws_encode, Hx; [|by left|lia].
    step. rewrite append_cons, skip_ws_head by done.
    change (Ascii.eqb "," "}") with false. change (Ascii.eqb "," ",") with true.
    cbv iota. change ("" +:+ ?s) with s.
    rewrite skip_ws_newline_indent.
    assert (Hskip : ∀ R, skip_ws (separated ("," +:+ newline_indent (S level))
                           (map (member_chunk (S level)) ((k', v') :: d')) +:+ R)
                         = separated ("," +:+ newline_indent (S level))
                             (map (member_chunk (S level)) ((k', v') :: d')) +:+ R).
    { intros R. destruct d' as [|kv'' d''].
      - change (separated _ (map _ [(k', v')])) with (member_chunk (S level) (k', v')).
        by rewrite member_chunk_eq.
      - change (map (member_chunk (S level)) ((k', v') :: kv'' :: d''))
          with (member_chunk (S level) (k', v') :: member_chunk (S level) kv''
                :: map (member_chunk (S level)) d'').
        by rewrite separated_cons, !append_assoc, member_chunk_eq. }
    rewrite Hskip, IH; [done|done|]. simpl in *. lia.
Qed.

Lemma parse_encode v : wf v → parses v.
Proof.
  induction v as [|b|z|s|l IH|d IH] using value_ind'; intros Hwf level rest fuel Hr Hfuel;
    (destruct fuel as [|n]; [simpl in Hfuel; lia|]).
  - done.
  - by destruct b.
  - destruct (dec_head z) as (c & t & Hs & Hc).
    pose proof (scan_number_dec z rest Hr) as Hn.
    change (encode level (VInt z)) with (dec z). rewrite Hs in *.
    rewrite append_cons in *. by rewrite parse_value_number.
  - change (encode level (VStr s)) with (encode_string s). unfold encode_string.
    rewrite !append_assoc. change (dq +:+ ?x) with (String (ascii_of_nat 34) x).
    rewrite parse_value_unfold.
    change (Ascii.eqb (ascii_of_nat 34) (ascii_of_nat 34)) with true. cbv iota.
    by rewrite scan_string_escape.
  - destruct l as [|x l]; [done|].
    apply wf_list in Hwf.
    assert (Hall : Forall parses (x :: l)).
    { apply Forall_forall. intros y Hy.
      rewrite Forall_forall in IH, Hwf. by apply IH, Hwf. }
    change (encode level (VList (x :: l)))
      with ("[" +:+ newline_indent (S level)
            +:+ separated ("," +:+ newline_indent (S level))
                  (map (encode (S level)) (x :: l))
            +:+ newline_indent level +:+ "]").
    rewrite !append_assoc, append_cons. change ("" +:+ ?s) with s.
    rewrite parse_value_unfold.
    change (Ascii.eqb "[" (ascii_of_nat 34)) with false.
    change (Ascii.eqb "[" "{") with false.
    change (Ascii.eqb "[" "[") with true. cbv iota.
    rewrite skip_ws_newline_indent.
    destruct (items_head ("," +:+ newline_indent (S level)) (S level) x l
                (newline_indent level +:+ "]" +:+ rest)) as (c & t & Hh & Hc).
    rewrite Hh, skip_ws_head by apply Hc.
    destruct Hc as (_ & -> & _). rewrite <-Hh.
    change (size (VList (x :: l))) with (S (items_size (x :: l))) in Hfuel.
    rewrite parse_items_encode; [done|done|done|lia].
  - destruct d as [|[k v] d]; [done|].
    apply wf_dict in Hwf as [Hnd Hwf].
    assert (Hall : Forall (λ kv, parses kv.2) ((k, v) :: d)).
    { apply Forall_forall. intros y Hy.
      rewrite Forall_forall in IH, Hwf. by apply IH, Hwf. }
    change (encode level (VDict ((k, v) :: d)))
      with ("{" +:+ newline_indent (S level)
            +:+ separated ("," +:+ newline_indent (S level))
                  (map (member_chunk (S level)) ((k, v) :: d))
            +:+ newline_indent level +:+ "}").
    rewrite !append_assoc, append_cons. change ("" +:+ ?s) with s.
    rewrite parse_value_unfold.
    change (Ascii.eqb "{" (ascii_of_nat 34)) with false.
    change (Ascii.eqb "{" "{") with true. cbv iota.
    rewrite skip_ws_newline_indent.
    assert (Hh : ∃ t, separated ("," +:+ newline_indent (S level))
                     (map (member_chunk (S level)) ((k, v) :: d))
                   +:+ newline_indent level +:+ "}" +:+ rest
                   = String (ascii_of_nat 34) t).
    { destruct d as [|kv' d'].
      - change (separated _ (map _ [(k, v)])) with (member_chunk (S level) (k, v)).
        rewrite member_chunk_eq. by eexists.
      - change (map (member_chunk (S level)) ((k, v) :: kv' :: d'))
          with (member_chunk (S level) (k, v) :: member_chunk (S level) kv'
                :: map (member_chunk (S level)) d').
        rewrite separated_cons, !append_assoc, member_chunk_eq. by eexists. }
    destruct Hh as (t & Hh). rewrite Hh, skip_ws_head by done.
    change (Ascii.eqb (ascii_of_nat 34) "}") with false. cbv iota. rewrite <-Hh.
    change (size (VDict ((k, v) :: d))) with (S (members_size ((k, v) :: d))) in Hfuel.
    rewrite parse_members_encode; [|done|done|lia].
    step. by rewrite dict_of_pairs_NoDup.
Qed.

Lemma length_append (a b : string) :
  String.length (a +:+ b) = (String.length a + String.length b)%nat.
Proof.
  induction a as [|x a IH]; [done|].
  rewrite append_cons. simpl. by rewrite IH.
Qed.

Lemma append_nil_r (a : string) : a +:+ "" = a.
Proof. induction a as [|x a IH]; [done|]. rewrite append_cons. by rewrite IH. Qed.

Lemma separated_length (sep : string) (sizes : list nat) (chunks : list string) :
  (1 ≤ String.length sep)%nat →
  Forall2 (λ n c, n ≤ String.length c)%nat sizes chunks →
  (foldr (λ n m, S n + m) 0 sizes ≤ String.length (separated sep chunks) + 1)%nat.
Proof.
  intros Hsep. induction 1 as [|n c sizes chunks Hn Hrest IH]; [simpl; lia|].
  destruct Hrest as [|n' c' sizes' chunks' Hn' Hrest'].
  - simpl. lia.
  - rewrite separated_cons, !length_append. simpl in *. lia.
Qed.

Lemma size_le_length v : ∀ level, (size v ≤ String.length (encode level v))%nat.
Proof.
  induction v as [|b|z|s|l IH|d IH] using value_ind'; intros level.
  - simpl. lia.
  - destruct b; simpl; lia.
  - destruct (dec_head z) as (c & t & Hs & _).
    change (encode level (VInt z)) with (dec z). rewrite Hs. simpl. lia.
  - change (encode level (VStr s)) with (encode_string s). unfold encode_string.
    rewrite !length_append. simpl. lia.
  - destruct l as [|x l]; [simpl; lia|].
    change (encode level (VList (x :: l)))
      with ("[" +:+ newline_indent (S level)
            +:+ separated ("," +:+ newline_indent (S level))
                  (map (encode (S level)) (x :: l))
            +:+ newline_indent level +:+ "]").
    change (size (VList (x :: l))) with (S (items_size (x :: l))).
    rewrite !length_append.
    pose proof (separated_length ("," +:+ newline_indent (S level))
                  (map size (x :: l)) (map (encode (S level)) (x :: l))) as Hlen.
    assert (items_size (x :: l) = foldr (λ n m, S n + m)%nat 0%nat (map size (x :: l))) as ->.
    { unfold items_size. generalize (x :: l). intros l0.
      induction l0 as [|y l0 IH0]; [done|]. simpl. do 2 f_equal. exact IH0. }
    assert (1 ≤ String.length ("[" : string))%nat by (simpl; lia).
    etrans; [apply le_n_S, Hlen|].
    + rewrite length_append. simpl. lia.
    + apply Forall2_fmap, Forall_Forall2_diag.
      eapply Forall_impl; [exact IH|]. intros y Hy. apply Hy.
    + simpl. lia.
  - destruct d as [|kv d]; [simpl; lia|].
    change (encode level (VDict (kv :: d)))
      with ("{" +:+ newline_indent (S level)
            +:+ separated ("," +:+ newline_indent (S level))
                  (map (member_chunk (S level)) (kv :: d))
            +:+ newline_indent level +:+ "}").
    change (size (VDict (kv :: d))) with (S (members_size (kv :: d))).
    rewrite !length_append.
    pose proof (separated_length ("," +:+ newline_indent (S level))
                  (map (λ kv, size kv.2) (kv :: d))
                  (map (member_chunk (S level)) (kv :: d))) as Hlen.
    assert (members_size (kv :: d)
            = foldr (λ n m, S n + m)%nat 0%nat (map (λ kv, size kv.2) (kv :: d))) as ->.
    { unfold members_size. generalize (kv :: d). intros l0.
      induction l0 as [|y l0 IH0]; [done|]. simpl. do 2 f_equal. exact IH0. }
    etrans; [apply le_n_S, Hlen|].
    + rewrite length_append. simpl. lia.
    + apply Forall2_fmap, Forall_Forall2_diag.
      eapply Forall_impl; [exact IH|]. intros y Hy. unfold member_chunk.
      rewrite !length_append. specialize (Hy (S level)). simpl in *. lia.
    + simpl. lia.
Qed.

Lemma loads_dumps v : wf v → loads (dumps v) = Some v.
Proof.
  intros Hwf. unfold loads, dumps.
  pose proof (skip_ws_encode 0 v "") as Hskip. rewrite append_nil_r in Hskip.
  rewrite Hskip.
  pose proof (parse_encode v Hwf 0%nat "" (2 * String.length (encode 0 v) + 1)%nat I)
    as Hparse.
  rewrite append_nil_r in Hparse. rewrite Hparse; [done|].
  pose proof (size_le_length v 0). lia.
Qed.

(** ** The snapshot is well formed *)

Lemma wf_dict_lookup (d : list (string * value)) k x :
  Forall (λ kv, wf kv.2) d → dict_lookup k d = Some x → wf x.
Proof.
  induction 1 as [|[k' v] d Hv _ IH]; simpl; [done|].
  case_decide; [by intros [= <-]|done].
Qed.

Lemma wf_getitem v k x : wf v → getitem v k = Ok x → wf x.
Proof.
  intros Hwf (d & -> & Hl)%getitem_dict.
  apply wf_dict in Hwf as [_ Hwf]. by eapply wf_dict_lookup.
Qed.

Lemma wf_get v k dflt x : wf v → wf dflt → get v k dflt = Ok x → wf x.
Proof.
  destruct v as [| | | | |d]; simpl; try done. intros Hwf Hd [= <-].
  apply wf_dict in Hwf as [_ Hwf].
  destruct (dict_lookup k d) eqn:Hl; simpl; [by eapply wf_dict_lookup|done].
Qed.

Lemma pub_dict_wf w pub_filled d : wf pub_filled → pub_dict w pub_filled = Ok d → wf d.
Proof.
  intros Hwf. unfold pub_dict. run.
  destruct (getitem pub_filled "bib") as [bib|] eqn:Hb; simpl; [|done].
  pose proof (wf_getitem _ _ _ Hwf Hb) as Hbib.
  destruct (get bib "title" _) eqn:H1; simpl; [|done].
  destruct (get bib "author" _) eqn:H2; simpl; [|done].
  destruct (get bib "conference" _) as [conference|] eqn:H3; simpl; [|done].
  pose proof (wf_get bib _ (VStr "") _ Hbib I H3) as Hconf.
  destruct (get bib "journal" _) eqn:H4; simpl; [|done].
  destruct (get bib "pub_year" _) eqn:H5; simpl; [|done].
  destruct (get pub_filled "num_citations" _) eqn:H6; simpl; [|done].
  destruct (getitem pub_filled "author_pub_id") as [id|] eqn:H7; simpl; [|done].
  destruct (get bib "abstract" _) eqn:H8; simpl; [|done].
  intros [= <-]. apply wf_dict. split.
  - apply (bool_decide_unpack _). by vm_compute.
  - repeat constructor; simpl.
    + exact (wf_get bib _ (VStr "") _ Hbib I H1).
    + exact (wf_get bib _ (VStr "") _ Hbib I H2).
    + exact (wf_get _ _ _ _ Hbib Hconf H4).
    + exact (wf_get bib _ (VInt 0) _ Hbib I H5).
    + exact (wf_get pub_filled _ (VInt 0) _ Hwf I H6).
    + exact (wf_get bib _ (VStr "") _ Hbib I H8).
    + exact (wf_getitem _ _ _ Hwf H7).
Qed.

Lemma expanded_wf w (stubs : list value) :
  provider_wf w → ∀ i, Forall wf (expanded w i stubs).
Proof.
  intros Hw. induction stubs as [|pub stubs IH]; intros i; simpl; [constructor|].
  destruct (expand w i pub) as [d|] eqn:Hd; [|done].
  constructor; [|done]. unfold expand in Hd. run.
  destruct (fill w (S i) pub) as [pf|] eqn:Hf; simpl in Hd; [|done].
  eapply pub_dict_wf; [|done]. by eapply Hw.
Qed.

Lemma snapshot_wf w scholar_id s :
  provider_wf w → snapshot w scholar_id = Ok s → wf s.
Proof.
  intros Hw (author & stubs & c & h & i & sorted & Ha & Hc & Hh & Hi & _ & Hsort & ->)
    %snapshot_inv.
  assert (Hauthor : wf author).
  { unfold author_of in Ha. run.
    destruct (search_author_id w scholar_id); simpl in Ha; [|done]. by eapply Hw. }
  apply sort_reverse_spec in Hsort as (_ & _ & _ & Hperm & _).
  apply wf_dict. split; [apply (bool_decide_unpack _); by vm_compute|].
  apply Forall_cons. split; [|apply Forall_cons; split; [|by repeat constructor]].
  - apply wf_dict. split; [apply (bool_decide_unpack _); by vm_compute|].
    repeat (apply Forall_cons; split; [by eapply wf_getitem|]). constructor.
  - apply wf_list. rewrite Hperm. by apply expanded_wf.
Qed.

(** ** Some runs *)

Example sort_example w :
  sort (year_key w) true
    [VDict [("year", VInt 2020); ("title", VStr "A")];
     VDict [("year", VStr "2022"); ("title", VStr "B")];
     VDict [("year", VStr " 2020 "); ("title", VStr "C")]]
  = Ok [VDict [("year", VStr "2022"); ("title", VStr "B")];
        VDict [("year", VInt 2020); ("title", VStr "A")];
        VDict [("year", VStr " 2020 "); ("title", VStr "C")]].
Proof. reflexivity. Qed.

Example int_examples w :
  int (repr_str w) (VStr "  +1_000 ") = Ok 1000 ∧
  int (repr_str w) (VStr "-007") = Ok (-7) ∧
  is_ok (int (repr_str w) (VStr "1__0")) = false ∧
  is_ok (int (repr_str w) (VStr "")) = false ∧
  is_ok (int (repr_str w) VNone) = false.
Proof. done. Qed.

Example dumps_example :
  dumps (VDict [("stats", VDict [("citations", VInt 12)]);
                ("publications", VList [VStr "é"; VList []; VNone])])
  = "{" +:+ nl +:+
    "  " +:+ dq +:+ "stats" +:+ dq +:+ ": {" +:+ nl +:+
    "    " +:+ dq +:+ "citations" +:+ dq +:+ ": 12" +:+ nl +:+
    "  }," +:+ nl +:+
    "  " +:+ dq +:+ "publications" +:+ dq +:+ ": [" +:+ nl +:+
    "    " +:+ dq +:+ "é" +:+ dq +:+ "," +:+ nl +:+
    "    []," +:+ nl +:+
    "    null" +:+ nl +:+
    "  ]" +:+ nl +:+
    "}".
Proof. reflexivity. Qed.

Example loads_examples :
  loads "[1, -2 , 3]" = Some (VList [VInt 1; VInt (-2); VInt 3]) ∧
  loads "[1, 02]" = None ∧
  loads "[1.5]" = None ∧
  loads ("[" +:+ dq +:+ "é😀" +:+ dq +:+ "]") = Some (VList [VStr "é😀"]).
Proof. done. Qed.

(** The JSON file cannot be opened: the error is printed, and the two
    other files are written all the same. *)
Example run_with_json_denied :
  stdout (main json_denied_world initial).2
  = ["Fetching publications from Google Scholar...";
     "Processing publication 1 of 3";
     "Processing publication 2 of 3";
     "Processing publication 3 of 3";
     "Error saving publications: [Errno 13] Permission denied";
     "Successfully saved publications to _data/publications.yml";
     "Successfully generated HTML preview at publications_preview.html";
     nl +:+ "Stats:";
     "Total citations: 10";
     "h-index: 2";
     "i10-index: 1";
     nl +:+ "Total publications processed: 3";
     "Last updated: 2024-01-01 00:00:00"] ∧
  files (main json_denied_world initial).2 !! "publications.json" = None ∧
  files (main json_denied_world initial).2 !! "_data/publications.yml"
  = Some (yaml_dump json_denied_world plain_snapshot) ∧
  is_Some (files (main json_denied_world initial).2 !! "publications_preview.html") ∧
  naps (main json_denied_world initial).2 = 3%nat.
Proof. split_and!; try (by vm_compute). by eexists; vm_compute. Qed.

(** ** The properties of the specification *)

(** What [get_author_publications] returns is the snapshot, or [None]. *)
Lemma get_author_publications_snapshot w scholar_id st snap st' :
  get_author_publications w scholar_id st = (Ok snap, st') →
  truthy snap = true →
  snapshot w scholar_id = Ok snap.
Proof.
  intros Hrun Ht.
  destruct (get_author_publications_run w scholar_id st) as (st1 & out & Hg & _).
  rewrite Hg in Hrun. destruct (snapshot w scholar_id); by simplify_eq.
Qed.

Lemma expanded_elem_of w d (stubs : list value) :
  ∀ i, d ∈ expanded w i stubs ↔
       ∃ j pub, stubs !! j = Some pub ∧ expand w (i + j) pub = Ok d.
Proof.
  induction stubs as [|pub stubs IH]; intros i; simpl.
  - split; [by intros ?%elem_of_nil|].
    intros (j & ? & Hj & _). by rewrite lookup_nil in Hj.
  - assert (Hshift : (∃ j pub', stubs !! j = Some pub' ∧ expand w (S i + j) pub' = Ok d)
                     ↔ ∃ j pub', (pub :: stubs) !! S j = Some pub'
                                 ∧ expand w (i + S j) pub' = Ok d).
    { split; intros (j & q & Hj & He); exists j, q; split; try done;
        by replace (i + S j)%nat with (S i + j)%nat in * by lia. }
    destruct (expand w i pub) as [d'|e] eqn:Hd.
    + rewrite elem_of_cons, IH, Hshift. split.
      * intros [->|(j & q & ? & ?)]; [|by eauto].
        exists 0%nat, pub. by rewrite Nat.add_0_r.
      * intros ([|j] & q & Hj & He); [|by eauto].
        left. rewrite Nat.add_0_r in He. simplify_eq/=. congruence.
    + rewrite IH, Hshift. split; [by intros (j & q & ? & ?); eauto|].
      intros ([|j] & q & Hj & He); [|by eauto].
      rewrite Nat.add_0_r in He. simplify_eq/=. congruence.
Qed.





Lemma snapshot_of_author w scholar_id author stats stubs :
  author_of w scholar_id = Ok author →
  stats_of author = Ok stats →
  stubs_of author = Ok stubs →
  snapshot w scholar_id
  = (publications ← sort (year_key w) true (expanded w 0 stubs);
     mret (VDict [("stats", stats);
                  ("publications", VList publications);
                  ("last_updated", VStr (now w))])).
Proof.
  intros Ha Hs Hst. unfold snapshot, mbind, result_mbind.
  rewrite Ha. simpl. rewrite Hs. simpl. by rewrite Hst.
Qed.



(** C4.  When the author cannot be fetched, [get_author_publications]
    reports it and returns [None]; [main] then prints that it failed and
    returns, and no file or directory has been created or changed. *)
Theorem C4_fetch_failure_writes_nothing (w : world) (st : state) (e : exn) :
  author_of w "B96GkdgAAAAJ" = Raise e →
  get_author_publications w "B96GkdgAAAAJ" st
  = (Ok VNone, State (stdout st ++ ["Error fetching author data: " +:+ exn_str e])
                 (dirs st) (files st) (naps st)) ∧
  main w st
  = (Ok (), State (stdout st ++ ["Fetching publications from Google Scholar...";
                                 "Error fetching author data: " +:+ exn_str e;
                                 "Failed to fetch publications"])
              (dirs st) (files st) (naps st)).
Proof.
  intros Ha.
  assert (Hg : ∀ st0, get_author_publications w "B96GkdgAAAAJ" st0
    = (Ok VNone, State (stdout st0 ++ ["Error fetching author data: " +:+ exn_str e])
                   (dirs st0) (files st0) (naps st0))).
  { intros st0. unfold get_author_publications, author_of in *. run.
    destruct (search_author_id w "B96GkdgAAAAJ") as [a0|]; simpl in *.
    - by rewrite Ha.
    - by simplify_eq. }
  split; [apply Hg|].
  unfold main. rewrite bind_run, print_run, bind_run, Hg. simpl.
  rewrite print_run. simpl. by rewrite <-!app_assoc.
Qed.

Lemma C4_fetch_failure_writes_nothing_witness :
  main (example_world (Raise (Exn ProviderError "Cannot fetch the page")) [] []) initial
  = (Ok (), State ["Fetching publications from Google Scholar...";
                   "Error fetching author data: Cannot fetch the page";
                   "Failed to fetch publications"] ∅ ∅ 0).
Proof.
  apply (C4_fetch_failure_writes_nothing
           (example_world (Raise (Exn ProviderError "Cannot fetch the page")) [] [])
           initial (Exn ProviderError "Cannot fetch the page")).
  reflexivity.
Defined.






(** C8.  In the dictionary of a publication, [bib_id] is the identifier
    that the provider gave under ['author_pub_id'], and [url] is the
    citation address of Scholar followed by that identifier (by its [str],
    which for a string is the string itself). *)
Theorem C8_url_from_provider_id (w : world) (pub_filled d : value) :
  pub_dict w pub_filled = Ok d →
  ∃ id,
    getitem pub_filled "author_pub_id" = Ok id ∧
    getitem d "bib_id" = Ok id ∧
    getitem d "url" = Ok (VStr (url_prefix +:+ str (repr_str w) id)) ∧
    ∀ s, id = VStr s → getitem d "url" = Ok (VStr (url_prefix +:+ s)).
Proof.
  unfold pub_dict. run.
  destruct (getitem pub_filled "bib") as [bib|]; simpl; [|done].
  destruct (get bib "title" _); simpl; [|done].
  destruct (get bib "author" _); simpl; [|done].
  destruct (get bib "conference" _); simpl; [|done].
  destruct (get bib "journal" _); simpl; [|done].
  destruct (get bib "pub_year" _); simpl; [|done].
  destruct (get pub_filled "num_citations" _); simpl; [|done].
  destruct (getitem pub_filled "author_pub_id") as [id|]; simpl; [|done].
  destruct (get bib "abstract" _); simpl; [|done].
  intros [= <-]. exists id. split_and!; try done. by intros s ->.
Qed.

Lemma C8_url_from_provider_id_witness :
  ∃ id,
    getitem (example_stub (VInt 2020) "A") "author_pub_id" = Ok id ∧
    getitem (VDict [("title", VStr "A"); ("authors", VStr ""); ("venue", VStr "");
                    ("year", VInt 2020); ("citations", VInt 0);
                    ("url", VStr (url_prefix +:+ "id-A")); ("abstract", VStr "");
                    ("bib_id", VStr "id-A")]) "bib_id" = Ok id.
Proof.
  destruct (C8_url_from_provider_id plain_world (example_stub (VInt 2020) "A")
              (VDict [("title", VStr "A"); ("authors", VStr ""); ("venue", VStr "");
                      ("year", VInt 2020); ("citations", VInt 0);
                      ("url", VStr (url_prefix +:+ "id-A")); ("abstract", VStr "");
                      ("bib_id", VStr "id-A")]))
    as (id & H1 & H2 & _).
  - reflexivity.
  - exists id. split; assumption.
Defined.





(** ** Further properties of the script *)

(** *** The dictionary of a publication *)

Lemma pub_dict_inv w pub_filled d :
  pub_dict w pub_filled = Ok d →
  ∃ p bib id,
    pub_filled = VDict p ∧ dict_lookup "bib" p = Some (VDict bib) ∧
    dict_lookup "author_pub_id" p = Some id ∧ is_publication d.
Proof.
  unfold pub_dict. run.
  destruct (getitem pub_filled "bib") as [bib|] eqn:Hb; simpl; [|done].
  apply getitem_dict in Hb as (p & -> & Hb).
  destruct bib as [| | | | |bib]; simpl; try done.
  destruct (dict_lookup "author_pub_id" p) as [id|] eqn:Hid; simpl; [|done].
  intros [= <-]. exists p, bib, id. split_and!; try done.
  unfold is_publication. by do 8 eexists.
Qed.


(** *** The loop and the snapshot *)

Lemma expanded_is_publication w (stubs : list value) :
  ∀ i, Forall is_publication (expanded w i stubs).
Proof.
  induction stubs as [|pub stubs IH]; intros i; simpl; [constructor|].
  destruct (expand w i pub) as [d|] eqn:Hd; [|done].
  constructor; [|done]. unfold expand in Hd. run.
  destruct (fill w (S i) pub) as [pf|]; simpl in Hd; [|done].
  by apply pub_dict_inv in Hd as (_ & _ & _ & _ & _ & _ & ?).
Qed.

Lemma expanded_length w (stubs : list value) :
  ∀ i, (length (expanded w i stubs) ≤ length stubs)%nat.
Proof.
  induction stubs as [|pub stubs IH]; intros i; simpl; [done|].
  specialize (IH (S i)). destruct (expand w i pub); simpl; lia.
Qed.

(** X2.  [get_author_publications] never raises and never touches a file
    or a directory.  What it returns is [None] or a dictionary with the keys
    [stats] (the three counts), [publications] and [last_updated] (the clock),
    in this order, in which every publication is a dictionary with the eight
    keys [title], [authors], [venue], [year], [citations], [url], [abstract]
    and [bib_id]. *)
Theorem X2_snapshot_schema (w : world) (scholar_id : string) (st : state) :
  ∃ r st',
    get_author_publications w scholar_id st = (Ok r, st') ∧
    (r = VNone ∨ is_snapshot w r) ∧
    dirs st' = dirs st ∧ files st' = files st.
Proof.
  destruct (get_author_publications_run w scholar_id st)
    as (st' & out & Hg & _ & Hd & Hf).
  eexists _, st'. split; [exact Hg|]. split; [|done].
  destruct (snapshot w scholar_id) as [s|] eqn:Hs; [|by left]. right.
  apply snapshot_inv in Hs as (author & stubs & c & h & i & sorted &
    _ & _ & _ & _ & _ & Hsort & ->).
  exists c, h, i, sorted. split; [done|].
  apply sort_reverse_spec in Hsort as (_ & _ & _ & Hperm & _).
  rewrite Hperm. apply expanded_is_publication.
Qed.

(** X3.  When the filled author record lacks one of the keys [citedby],
    [hindex], [i10index] or [publications] (or its publications cannot be
    iterated), the run is given up before any publication is looked at:
    [None] is returned after the one line that reports the exception, no
    progress line is printed and no pause is taken. *)
Theorem X3_incomplete_author_aborts_early
    (w : world) (scholar_id : string) (st : state) (author : value) (e : exn) :
  author_of w scholar_id = Ok author →
  (stats ← stats_of author; stubs_of author) = Raise e →
  get_author_publications w scholar_id st
  = (Ok VNone, State (stdout st ++ ["Error fetching author data: " +:+ exn_str e])
                 (dirs st) (files st) (naps st)).
Proof.
  unfold get_author_publications, author_of, stats_of, stubs_of. run.
  destruct (search_author_id w scholar_id) as [a0|]; simpl; [|done].
  intros ->. simpl.
  destruct (getitem author "citedby"); simpl; [|by intros [= ->]].
  destruct (getitem author "hindex"); simpl; [|by intros [= ->]].
  destruct (getitem author "i10index"); simpl; [|by intros [= ->]].
  destruct (getitem author "publications") as [pubs|]; simpl; [|by intros [= ->]].
  destruct (iter pubs); simpl; [done|by intros [= ->]].
Qed.

Lemma X3_incomplete_author_aborts_early_witness :
  get_author_publications no_hindex_world "B96GkdgAAAAJ" initial
  = (Ok VNone, State ["Error fetching author data: 'hindex'"] ∅ ∅ 0).
Proof.
  apply (X3_incomplete_author_aborts_early no_hindex_world "B96GkdgAAAAJ" initial
           (VDict [("citedby", VInt 10); ("i10index", VInt 1);
                   ("publications", VList example_stubs)])
           (Exn KeyError "'hindex'")); reflexivity.
Defined.

(** The loop, with what it prints and the pauses it takes. *)
Lemma process_account w (stubs : list value) :
  ∀ total i acc st, ∃ st' out,
    process w total i stubs acc st = (Ok (acc ++ expanded w i stubs), st') ∧
    only_printed st st' out ∧
    naps st' = (naps st + length (expanded w i stubs))%nat ∧
    (length out + length (expanded w i stubs) = 2 * length stubs)%nat ∧
    ∀ j, (j < length stubs)%nat → progress_line total (i + j) ∈ out.
Proof.
  induction stubs as [|pub stubs IH]; intros total i acc st.
  - exists st, []. simpl. rewrite app_nil_r.
    split_and!; [done|apply only_printed_refl|lia|lia|intros j Hj; lia].
  - simpl. run. destruct (expand w i pub) as [d|e] eqn:Hd.
    + edestruct (IH total (S i) (acc ++ [d])) as (st' & out & -> & Hp & Hn & Hl & Hj).
      exists st', (progress_line total i :: out).
      rewrite <-app_assoc. split_and!; try done.
      * eapply (only_printed_trans _ _ _ [_]); [|exact Hp]. done.
      * rewrite Hn. simpl. lia.
      * simpl. lia.
      * intros [|j] Hlt.
        -- rewrite Nat.add_0_r. by left.
        -- right. replace (i + S j)%nat with (S i + j)%nat by lia.
           apply Hj. simpl in Hlt. lia.
    + edestruct (IH total (S i) acc) as (st' & out & -> & Hp & Hn & Hl & Hj).
      exists st', (progress_line total i
                   :: ("Error processing publication: " +:+ exn_str e) :: out).
      split_and!; try done.
      * eapply (only_printed_trans _ _ _ [_; _]); [|exact Hp].
        unfold only_printed; simpl. by rewrite <-app_assoc.
      * simpl. lia.
      * intros [|j] Hlt.
        -- rewrite Nat.add_0_r. by left.
        -- do 2 right. replace (i + S j)%nat with (S i + j)%nat by lia.
           apply Hj. simpl in Hlt. lia.
Qed.




(** *** The sort *)

Section sort_fixed_point.
Context {A : Type} (key : A → result Z).

Lemma Sorted_zip_keys (ks : list Z) :
  Sorted (flip Z.le) ks →
  ∀ ps : list A, Sorted (flip le_key) (zip ks ps).
Proof.
  induction 1 as [|k ks Hs IH Hhd]; intros ps; [constructor|].
  destruct ps as [|p ps]; [constructor|]. simpl. constructor; [apply IH|].
  destruct Hhd as [|k' ks' Hk]; [constructor|].
  destruct ps as [|p' ps']; constructor. done.
Qed.

Lemma sort_descending_id (ps : list A) (ks : list Z) :
  result_mapM key ps = Ok ks → descending ks → sort key true ps = Ok ps.
Proof.
  intros Hks Hd. unfold sort. rewrite Hks. simpl.
  destruct (result_mapM_zip key _ _ Hks) as [Hlen _].
  assert (Hsorted : Sorted le_key (reverse (zip ks ps))).
  { apply (Sorted_reverse (flip le_key)). by apply Sorted_zip_keys. }
  rewrite <-(stable_sort_unique (reverse (zip ks ps)) (reverse (zip ks ps)))
    by done.
  rewrite reverse_involutive, snd_zip by lia. done.
Qed.
End sort_fixed_point.

(** X6.  A list whose keys are already in non-increasing order comes out
    of [sort(key=..., reverse=True)] as it went in; in particular the
    publications that all have the same year, or none, keep the order of the
    fetch. *)
Theorem X6_sort_keeps_descending_input
    {A : Type} (key : A → result Z) (ps : list A) (ks : list Z) :
  result_mapM key ps = Ok ks →
  descending ks →
  sort key true ps = Ok ps.
Proof. apply sort_descending_id. Qed.

Lemma X6_sort_keeps_descending_input_witness :
  sort (year_key plain_world) true
    [VDict [("year", VStr "2022")]; VDict [("year", VInt 2020)];
     VDict [("year", VStr "2020")]; VDict [("year", VInt 0)]]
  = Ok [VDict [("year", VStr "2022")]; VDict [("year", VInt 2020)];
        VDict [("year", VStr "2020")]; VDict [("year", VInt 0)]].
Proof.
  apply (X6_sort_keeps_descending_input (year_key plain_world) _ [2022; 2020; 2020; 0]).
  - reflexivity.
  - unfold descending. repeat constructor; unfold flip; lia.
Defined.

(** X7.  Sorting twice is sorting once: the list that [sort] returns is
    returned unchanged by a second [sort] with the same key. *)
Theorem X7_sort_idempotent {A : Type} (key : A → result Z) (ps ps' : list A) :
  sort key true ps = Ok ps' → sort key true ps' = Ok ps'.
Proof.
  intros (ks & Hks & Hd & _)%sort_reverse_spec. by eapply sort_descending_id.
Qed.

Lemma X7_sort_idempotent_witness :
  sort (year_key plain_world) true
    [VDict [("year", VInt 2022); ("title", VStr "B")];
     VDict [("year", VInt 2020); ("title", VStr "A")];
     VDict [("year", VInt 2020); ("title", VStr "C")]]
  = Ok [VDict [("year", VInt 2022); ("title", VStr "B")];
        VDict [("year", VInt 2020); ("title", VStr "A")];
        VDict [("year", VInt 2020); ("title", VStr "C")]].
Proof.
  apply (X7_sort_idempotent (year_key plain_world)
           [VDict [("year", VInt 2020); ("title", VStr "A")];
            VDict [("year", VInt 2022); ("title", VStr "B")];
            VDict [("year", VInt 2020); ("title", VStr "C")]]).
  reflexivity.
Defined.

(** *** The sinks *)

Lemma snapshot_is_snapshot w scholar_id s :
  snapshot w scholar_id = Ok s → is_snapshot w s.
Proof.
  intros (author & stubs & c & h & i & sorted & _ & _ & _ & _ & _ & Hsort & ->)
    %snapshot_inv.
  exists c, h, i, sorted. split; [done|].
  apply sort_reverse_spec in Hsort as (_ & _ & _ & Hperm & _).
  rewrite Hperm. apply expanded_is_publication.
Qed.

Lemma render_publication_ok w p :
  is_publication p → render_publication w p = Ok (publication_block w p).
Proof. intros (t & a & v & y & c & u & ab & id & ->). done. Qed.

Lemma render_publications_ok w (pubs : list value) :
  Forall is_publication pubs →
  ∀ html, render_publications w html pubs
          = Ok (html +:+ concat_str (map (publication_block w) pubs)).
Proof.
  induction 1 as [|p pubs Hp _ IH]; intros html; simpl.
  - by rewrite append_nil_r.
  - run. rewrite (render_publication_ok w p Hp). simpl.
    rewrite IH. by rewrite append_assoc.
Qed.

Lemma render_snapshot w s : is_snapshot w s → render w s = Ok (preview_page w s).
Proof.
  intros (c & h & i & pubs & -> & Hpubs). unfold render, preview_page. run.
  change (field _ "publications") with (VList pubs).
  rewrite (render_publications_ok w pubs Hpubs). simpl.
  by rewrite !append_assoc.
Qed.



(** X9.  The preview is rendered in full before its file is opened: when
    the data lack a key (for instance [stats]), the exception is reported
    and the file system is left as it was, an earlier preview included. *)
Theorem X9_preview_failure_keeps_old_file
    (w : world) (data : value) (path : string) (st : state) (e : exn) :
  render w data = Raise e →
  generate_html_preview w data path st
  = (Ok (), State (stdout st ++ ["Error generating HTML preview: " +:+ exn_str e])
              (dirs st) (files st) (naps st)).
Proof.
  intros Hr. unfold generate_html_preview.
  by rewrite try_except_run, lift_bind_run, Hr, print_run.
Qed.

Lemma X9_preview_failure_keeps_old_file_witness :
  generate_html_preview plain_world
    (VDict [("publications", VList []); ("last_updated", VStr "2024-01-01")])
    "publications_preview.html" earlier_run
  = (Ok (), State ["Error generating HTML preview: 'stats'"]
              (dirs earlier_run) (files earlier_run) 0).
Proof.
  apply (X9_preview_failure_keeps_old_file plain_world _ _ earlier_run
           (Exn KeyError "'stats'")).
  reflexivity.
Defined.



(** X11.  When [_data] exists and is not a directory, [os.makedirs] raises
    [FileExistsError]: the sink for the static site reports it and writes
    nothing. *)
Theorem X11_data_not_a_directory
    (w : world) (data : value) (path : string) (st : state) :
  fault w (Makedirs "_data") = None →
  is_Some (files st !! "_data") →
  save_publications_for_jekyll w data path st
  = (Ok (), State (stdout st
                   ++ ["Error saving publications: [Errno 17] File exists: '_data'"])
              (dirs st) (files st) (naps st)).
Proof.
  intros Hm Hf. unfold save_publications_for_jekyll.
  rewrite try_except_run, bind_run. unfold makedirs at 1. rewrite Hm.
  by rewrite decide_True by done.
Qed.

Lemma X11_data_not_a_directory_witness :
  save_publications_for_jekyll plain_world plain_snapshot "_data/publications.yml"
    data_is_a_file
  = (Ok (), State ["Error saving publications: [Errno 17] File exists: '_data'"]
              ∅ {["_data" := "not a directory"]} 0).
Proof.
  apply (X11_data_not_a_directory plain_world plain_snapshot
           "_data/publications.yml" data_is_a_file).
  - reflexivity.
  - by eexists; vm_compute.
Defined.

(** *** [main] *)

Lemma get_author_publications_frame w scholar_id st r st' :
  get_author_publications w scholar_id st = (r, st') →
  dirs st' = dirs st ∧ files st' = files st.
Proof.
  intros Hrun.
  destruct (get_author_publications_run w scholar_id st) as (st1 & out & Hg & _ & ? & ?).
  rewrite Hg in Hrun. by simplify_eq.
Qed.

Lemma main_without_fault w st snap :
  snapshot w "B96GkdgAAAAJ" = Ok snap →
  (∀ op, fault w op = None) →
  (∀ path, write_fault w path = None) →
  "publications.json" ∉ dirs st →
  "_data/publications.yml" ∉ dirs st →
  "publications_preview.html" ∉ dirs st →
  files st !! "_data" = None →
  ∃ st',
    main w st = (Ok (), st') ∧
    dirs st' = {["_data"]} ∪ dirs st ∧
    files st' = three_files w snap (files st).
Proof.
  intros Hs Hfault Hwrite Hj Hy Hh Hdata.
  destruct (main_snapshot w snap st Hs) as (st1 & st2 & st3 & st4 & lines &
    Hg & H2 & H3 & H4 & _ & Hm).
  destruct (get_author_publications_frame _ _ _ _ _ Hg) as [Hd1 Hf1].
  simpl in Hd1, Hf1.
  rewrite save_publications_ok in H2; last first.
  { unfold writable. rewrite Hd1. split_and!; try done. by left. }
  injection H2 as <-.
  pose proof (snapshot_is_snapshot _ _ _ Hs) as Hsnap.
  pose proof (render_snapshot w snap Hsnap) as Hrender.
  destruct Hsnap as (c & h & i & pubs & Heq & _).
  assert (Hfields : ∃ stats upd,
            getitem snap "stats" = Ok stats ∧
            getitem snap "publications" = Ok (VList pubs) ∧
            getitem snap "last_updated" = Ok upd ∧
            VDict [("stats", stats); ("publications", VList pubs);
                   ("last_updated", upd)] = snap).
  { rewrite Heq. by eexists _, _. }
  clear Heq. destruct Hfields as (stats & upd & Hg1 & Hg2 & Hg3 & Heq).
  rewrite (save_publications_for_jekyll_ok w snap _ stats (VList pubs) upd)
    in H3; try done; cycle 1.
  { simpl. rewrite lookup_insert_ne by done. by rewrite Hf1. }
  { unfold writable. simpl. rewrite Hd1. split_and!; try done.
    - rewrite elem_of_union, elem_of_singleton. by intros [?|?].
    - right. change (dirname "_data/publications.yml") with "_data".
      apply elem_of_union. left. by apply elem_of_singleton. }
  rewrite Heq in H3. injection H3 as <-.
  rewrite (generate_html_preview_ok w snap _ (preview_page w snap)) in H4;
    try done; cycle 1.
  { unfold writable. simpl. rewrite Hd1. split_and!; try done.
    - rewrite elem_of_union, elem_of_singleton. by intros [?|?].
    - by left. }
  injection H4 as <-. eexists. split; [exact Hm|]. simpl.
  unfold three_files. by rewrite Hd1, Hf1.
Qed.





(** *** The order of the snapshot as a whole *)

Section mapM_facts.
Context {A : Type} (key : A → result Z).

Lemma result_mapM_app (l1 l2 : list A) ys :
  result_mapM key (l1 ++ l2) = Ok ys →
  ∃ ys1 ys2, ys = ys1 ++ ys2 ∧ result_mapM key l1 = Ok ys1 ∧
             result_mapM key l2 = Ok ys2.
Proof.
  revert ys. induction l1 as [|x l1 IH]; intros ys; simpl.
  - intros H. by exists [], ys.
  - destruct (key x) as [y|]; simpl; [|done].
    destruct (result_mapM key (l1 ++ l2)) as [ys'|] eqn:Hrest; simpl; [|done].
    intros [= <-]. destruct (IH ys' eq_refl) as (ys1 & ys2 & -> & -> & ->).
    by exists (y :: ys1), ys2.
Qed.

Lemma result_mapM_elem (l : list A) ys q :
  result_mapM key l = Ok ys → q ∈ l → ∃ y, key q = Ok y ∧ y ∈ ys.
Proof.
  revert ys. induction l as [|x l IH]; intros ys; simpl.
  - by intros _ ?%elem_of_nil.
  - destruct (key x) as [y|] eqn:Hx; simpl; [|done].
    destruct (result_mapM key l) as [ys'|]; simpl; [|done].
    intros [= <-] [->|Hin]%elem_of_cons.
    + exists y. split; [done|by left].
    + destruct (IH ys' eq_refl Hin) as (y' & ? & ?). exists y'. split; [done|by right].
Qed.
End mapM_facts.



(** *** Years written as text *)

Lemma lstrip_head (c : ascii) l : is_space c = false → lstrip (c :: l) = c :: l.
Proof. intros H. simpl. by rewrite H. Qed.

Lemma strip_no_space (l : list ascii) :
  Forall (λ c, is_space c = false) l → strip l = l.
Proof.
  intros Hall. unfold strip.
  assert (Hl : ∀ l', Forall (λ c, is_space c = false) l' → lstrip l' = l').
  { intros l' H'. destruct H' as [|c l' Hc _]; [done|]. by apply lstrip_head. }
  rewrite (Hl l Hall), Hl, reverse_involutive; [done|].
  by apply Forall_reverse.
Qed.

Lemma uint_chars_no_space (d : Decimal.uint) :
  Forall (λ c, is_space c = false)
    (list_ascii_of_string (NilEmpty.string_of_uint d)).
Proof. induction d; simpl; by constructor. Qed.

Ltac eval_digit :=
  match goal with
  | |- context [nat_of_ascii ?c] =>
      let v := eval vm_compute in (nat_of_ascii c) in
      change (nat_of_ascii c) with v
  end.

Lemma int_digits_acc (d : Decimal.uint) :
  ∀ acc, int_digits true (Z.pos acc)
           (list_ascii_of_string (NilEmpty.string_of_uint d))
         = Some (Z.pos (Pos.of_uint_acc d acc)).
Proof.
  induction d; intros acc; simpl; [done|..];
    rewrite <-IHd; f_equal; eval_digit; lia.
Qed.

Lemma int_digits_uint (d : Decimal.uint) :
  ∀ b, d ≠ Decimal.Nil ∨ b = true →
       int_digits b 0 (list_ascii_of_string (NilEmpty.string_of_uint d))
       = Some (Z.of_N (Pos.of_uint d)).
Proof.
  induction d; intros b Hb; simpl;
    try (rewrite <-int_digits_acc; f_equal; eval_digit; lia).
  - destruct Hb as [?| ->]; done.
  - rewrite <-(IHd true) by (by right). f_equal.
Qed.

Lemma int_of_literal_dec (z : Z) : int_of_literal (dec z) = Some z.
Proof.
  unfold int_of_literal, dec. destruct z as [|p|p]; simpl Z.to_int.
  - done.
  - pose proof (DecimalPos.Unsigned.to_uint_nonnil p) as Hnil.
    assert (NilZero.string_of_int (Decimal.Pos (Pos.to_uint p))
            = NilEmpty.string_of_uint (Pos.to_uint p)) as ->.
    { unfold NilZero.string_of_int, NilZero.string_of_uint.
      by destruct (Pos.to_uint p). }
    rewrite strip_no_space by apply uint_chars_no_space.
    destruct (to_uint_head p) as (c & t & Hs & _ & Hd).
    pose proof (int_digits_uint (Pos.to_uint p) false (or_introl Hnil)) as Hi.
    rewrite Hs in *. simpl in *.
    assert (Ascii.eqb c "-" = false ∧ Ascii.eqb c "+" = false) as [-> ->].
    { clear -Hd. destruct c as [[] [] [] [] [] [] [] []]; done. }
    rewrite Hi. by rewrite DecimalPos.Unsigned.of_to.
  - pose proof (DecimalPos.Unsigned.to_uint_nonnil p) as Hnil.
    assert (NilZero.string_of_int (Decimal.Neg (Pos.to_uint p))
            = String "-" (NilEmpty.string_of_uint (Pos.to_uint p))) as ->.
    { unfold NilZero.string_of_int, NilZero.string_of_uint.
      by destruct (Pos.to_uint p). }
    rewrite strip_no_space
      by (simpl; constructor; [done|apply uint_chars_no_space]).
    simpl. rewrite (int_digits_uint (Pos.to_uint p) false (or_introl Hnil)).
    by rewrite DecimalPos.Unsigned.of_to.
Qed.



(** *** One run after another *)

Lemma three_files_absorb w w' snap snap' (m : gmap string string) :
  three_files w' snap' (three_files w snap m) = three_files w' snap' m.
Proof.
  unfold three_files. apply map_eq. intros k.
  rewrite !lookup_insert. repeat case_decide; done.
Qed.

Lemma three_files_other w snap (m : gmap string string) k :
  k ≠ "publications.json" → k ≠ "_data/publications.yml" →
  k ≠ "publications_preview.html" →
  three_files w snap m !! k = m !! k.
Proof. intros. unfold three_files. by rewrite !lookup_insert_ne. Qed.



(** *** Text in the JSON file *)

Lemma escape_plain_char c : plain_char c = true → escape_char c = String c "".
Proof. destruct c as [[] [] [] [] [] [] [] []]; intros H; try done. Qed.

Lemma escape_plain s : plain_text s = true → escape s = s.
Proof.
  induction s as [|c s IH]; [done|]. simpl. intros [Hc Hs]%andb_prop.
  change (escape (String c s)) with (escape_char c +:+ escape s).
  rewrite (escape_plain_char c Hc), append_cons.
  change ("" +:+ ?x) with x. by rewrite IH.
Qed.

Lemma escape_char_length c :
  (if plain_char c then String.length (escape_char c) = 1
   else 2 ≤ String.length (escape_char c))%nat.
Proof. destruct c as [[] [] [] [] [] [] [] []]; simpl; lia. Qed.

Lemma escape_length s :
  (if plain_text s then String.length (escape s) = String.length s
   else String.length s < String.length (escape s))%nat.
Proof.
  induction s as [|c s IH]; [done|].
  change (escape (String c s)) with (escape_char c +:+ escape s).
  rewrite length_append. simpl.
  pose proof (escape_char_length c) as Hc.
  destruct (plain_char c), (plain_text s); simpl; lia.
Qed.

(** X17.  With [ensure_ascii=False], a string without control character,
    quote or backslash is written between two quotes as it is, the bytes of
    its non-ASCII characters included; any other string is written
    differently. *)
Theorem X17_plain_text_is_written_verbatim (s : string) :
  plain_text s = true ↔ encode_string s = dq +:+ s +:+ dq.
Proof.
  unfold encode_string. split.
  - intros Hs. by rewrite escape_plain.
  - intros Heq. apply (f_equal String.length) in Heq.
    rewrite !length_append in Heq.
    pose proof (escape_length s) as Hl.
    destruct (plain_text s); [done|]. lia.
Qed.
